(** * The reflection model of the documentation generator

    A shallow embedding of the converter and reflection-graph core:
    [DeclarationReflection] (models/reflections/declaration.ts), the
    accessor node converter (component [node:accessor]) and the search
    index plugin (output/plugins/JavascriptIndexPlugin.ts).

    JavaScript objects live in a store and are named by their location, so
    that two fields can hold the same object and an assignment through one
    is seen through the other.  Methods that write are computations in a
    state-and-exception monad over that store; methods that only read are
    functions of the store. *)

From Stdlib Require Import Ascii String.
From stdpp Require Import gmap strings list fin_maps sorting relations.

Set Warnings "-register-all".

Open Scope string_scope.
Open Scope Z_scope.
Open Scope list_scope.

(** ** Reflection kinds *)

(** Modelled from the spec: the [ReflectionKind] enumeration is declared in
    models/reflections/abstract.ts, which is not among the sources.  The
    kind is a bit flag per enumerator, which is what lets the converter test
    [scope.kind & ReflectionKind.ClassOrInterface]; [Constant] is the
    enumerator this code base adds for accessors tagged as constants. *)
Module ReflectionKind.
Definition Global : Z := 0.
Definition ExternalModule : Z := 1.
Definition Module_ : Z := 2.
Definition Enum : Z := 4.
Definition EnumMember : Z := 16.
Definition Variable_ : Z := 32.
Definition Function_ : Z := 64.
Definition Class : Z := 128.
Definition Interface : Z := 256.
Definition Constructor : Z := 512.
Definition Property : Z := 1024.
Definition Method : Z := 2048.
Definition CallSignature : Z := 4096.
Definition IndexSignature : Z := 8192.
Definition ConstructorSignature : Z := 16384.
Definition Parameter_ : Z := 32768.
Definition TypeLiteral : Z := 65536.
Definition TypeParameter : Z := 131072.
Definition Accessor : Z := 262144.
Definition GetSignature : Z := 524288.
Definition SetSignature : Z := 1048576.
Definition ObjectLiteral : Z := 2097152.
Definition TypeAlias : Z := 4194304.
Definition Event : Z := 8388608.
Definition Constant : Z := 16777216.
Definition ClassOrInterface : Z := Z.lor Class Interface.
End ReflectionKind.

(** ** Values of the object store *)

(** A location names one JavaScript object. *)
Abbreviation loc := nat (only parsing).

(** Modelled from the spec: the [Type] value model of models/types, which is
    not among the sources.  Only a [ReferenceType] has a [reflection]
    property, set once the reference is resolved. *)
Inductive Type_ : Type :=
| IntrinsicType (name : string)
| ReferenceType (name : string) (symbolID : Z) (reflection : option loc)
| ReflectionType (declaration : loc)
| UnionType (types : list Type_)
| IntersectionType (types : list Type_)
| ArrayType (elementType : Type_)
| TupleType (elements : list Type_)
| TypeParameterType (name : string)
| UnknownType (name : string).

(** [(t as ReferenceType).reflection]: the cast is erased at run time, and
    reading a property an object does not have yields [undefined]. *)
Definition Type_reflection (t : Type_) : option loc :=
  match t with
  | ReferenceType _ _ r => r
  | _ => None
  end.

(** Modelled from the spec: a comment is a summary text and a list of tags
    (section 3); the [Comment] class is not among the sources. *)
Record Comment := {
  summary : string;
  tags : list string
}.

(** [comment.hasTag(tagName)]. *)
Definition hasTag (c : Comment) (tagName : string) : bool :=
  bool_decide (tagName ∈ tags c).

(** Modelled from the spec: the flags of section 3. *)
Record ReflectionFlags := {
  isExported : bool;
  isPrivate : bool;
  isProtected : bool;
  isPublic : bool;
  isStatic : bool;
  isAbstract : bool;
  isOptional : bool;
  isRest : bool;
  isExternal : bool
}.

Definition noFlags : ReflectionFlags :=
  {| isExported := false; isPrivate := false; isProtected := false;
     isPublic := false; isStatic := false; isAbstract := false;
     isOptional := false; isRest := false; isExternal := false |}.

(** Modelled from the spec: class [Reflection] (models/reflections/abstract.ts)
    is not among the sources.  Section 3 gives it [id], [name], [kind],
    [flags], [comment] and [parent]; [url] and [cssClasses] are the fields
    the index plugin reads from it. *)
Record Reflection := {
  id : Z;
  name : string;
  kind : Z;
  flags : ReflectionFlags;
  comment : option Comment;
  parent : option loc;
  url : option string;
  cssClasses : option string
}.

(** declaration.ts, lines 12-27. *)
Inductive DeclarationHierarchy : Type :=
  mkDeclarationHierarchy
    (types : list Type_)
    (next : option DeclarationHierarchy)
    (isTarget : option bool).

(** Modelled from the spec: a signature is a reflection owning an ordered
    list of parameters, with a return type (section 3). *)
Record SignatureReflection := {
  sig_reflection : Reflection;
  parameters : option (list loc);
  sig_type : option Type_
}.

(** Modelled from the spec: [ContainerReflection], a reflection owning an
    ordered collection of children (section 3). *)
Record ContainerReflection := {
  reflection : Reflection;
  children : option (list loc)
}.

(** declaration.ts, lines 35-121.  [signatures] holds the location of an
    array object: [getAllSignatures] builds and fills arrays, and whether it
    touches the declaration's own array is a matter of which array it
    pushes to.  The other array fields are never written through by the
    code at hand and are kept by value. *)
Record DeclarationReflection := {
  container : ContainerReflection;
  type : option Type_;
  typeParameters : option (list loc);
  signatures : option loc;
  indexSignature : option loc;
  getSignature : option loc;
  setSignature : option loc;
  defaultValue : option string;
  overwrites : option Type_;
  inheritedFrom : option Type_;
  implementationOf : option Type_;
  extendedTypes : option (list Type_);
  extendedBy : option (list Type_);
  implementedTypes : option (list Type_);
  implementedBy : option (list Type_);
  typeHierarchy : option DeclarationHierarchy
}.

(** The objects of the store: the reflection classes ([ParameterReflection]
    stands for the leaf classes, parameters and type parameters, which have no
    fields of their own that matter here) and arrays of reflections. *)
Inductive object : Type :=
| Project (p : ContainerReflection)
| Declaration (d : DeclarationReflection)
| Signature (s : SignatureReflection)
| ParameterReflection (r : Reflection)
| Array (items : list loc).

(** The [Reflection] part of an object, when it is a reflection. *)
Definition as_reflection (o : object) : option Reflection :=
  match o with
  | Project p => Some (reflection p)
  | Declaration d => Some (reflection (container d))
  | Signature s => Some (sig_reflection s)
  | ParameterReflection r => Some r
  | Array _ => None
  end.

(** JavaScript truthiness of an optional string: [undefined] and the empty
    string are falsy. *)
Definition truthy_string (s : option string) : bool :=
  match s with
  | Some s => negb (String.eqb s "")
  | None => false
  end.

(** Truthiness of an optional object (objects and arrays are always
    truthy). *)
Definition truthy {A : Type} (o : option A) : bool :=
  match o with
  | Some _ => true
  | None => false
  end.

(** *** Field updates *)

Definition Reflection_set_id (i : Z) (r : Reflection) : Reflection :=
  {| id := i; name := name r; kind := kind r; flags := flags r;
     comment := comment r; parent := parent r; url := url r;
     cssClasses := cssClasses r |}.

Definition Container_set_reflection (r : Reflection) (c : ContainerReflection)
  : ContainerReflection :=
  {| reflection := r; children := children c |}.

Definition Container_set_children (cs : option (list loc))
    (c : ContainerReflection) : ContainerReflection :=
  {| reflection := reflection c; children := cs |}.

Definition Declaration_set_container (c : ContainerReflection)
    (d : DeclarationReflection) : DeclarationReflection :=
  {| container := c; type := type d; typeParameters := typeParameters d;
     signatures := signatures d; indexSignature := indexSignature d;
     getSignature := getSignature d; setSignature := setSignature d;
     defaultValue := defaultValue d; overwrites := overwrites d;
     inheritedFrom := inheritedFrom d;
     implementationOf := implementationOf d;
     extendedTypes := extendedTypes d; extendedBy := extendedBy d;
     implementedTypes := implementedTypes d;
     implementedBy := implementedBy d; typeHierarchy := typeHierarchy d |}.

Definition Declaration_set_type (t : option Type_)
    (d : DeclarationReflection) : DeclarationReflection :=
  {| container := container d; type := t;
     typeParameters := typeParameters d;
     signatures := signatures d; indexSignature := indexSignature d;
     getSignature := getSignature d; setSignature := setSignature d;
     defaultValue := defaultValue d; overwrites := overwrites d;
     inheritedFrom := inheritedFrom d;
     implementationOf := implementationOf d;
     extendedTypes := extendedTypes d; extendedBy := extendedBy d;
     implementedTypes := implementedTypes d;
     implementedBy := implementedBy d; typeHierarchy := typeHierarchy d |}.

Definition Declaration_set_getSignature (s : option loc)
    (d : DeclarationReflection) : DeclarationReflection :=
  {| container := container d; type := type d;
     typeParameters := typeParameters d;
     signatures := signatures d; indexSignature := indexSignature d;
     getSignature := s; setSignature := setSignature d;
     defaultValue := defaultValue d; overwrites := overwrites d;
     inheritedFrom := inheritedFrom d;
     implementationOf := implementationOf d;
     extendedTypes := extendedTypes d; extendedBy := extendedBy d;
     implementedTypes := implementedTypes d;
     implementedBy := implementedBy d; typeHierarchy := typeHierarchy d |}.

Definition Declaration_set_setSignature (s : option loc)
    (d : DeclarationReflection) : DeclarationReflection :=
  {| container := container d; type := type d;
     typeParameters := typeParameters d;
     signatures := signatures d; indexSignature := indexSignature d;
     getSignature := getSignature d; setSignature := s;
     defaultValue := defaultValue d; overwrites := overwrites d;
     inheritedFrom := inheritedFrom d;
     implementationOf := implementationOf d;
     extendedTypes := extendedTypes d; extendedBy := extendedBy d;
     implementedTypes := implementedTypes d;
     implementedBy := implementedBy d; typeHierarchy := typeHierarchy d |}.

Definition Declaration_set_extendedTypes (ts : option (list Type_))
    (d : DeclarationReflection) : DeclarationReflection :=
  {| container := container d; type := type d;
     typeParameters := typeParameters d;
     signatures := signatures d; indexSignature := indexSignature d;
     getSignature := getSignature d; setSignature := setSignature d;
     defaultValue := defaultValue d; overwrites := overwrites d;
     inheritedFrom := inheritedFrom d;
     implementationOf := implementationOf d;
     extendedTypes := ts; extendedBy := extendedBy d;
     implementedTypes := implementedTypes d;
     implementedBy := implementedBy d; typeHierarchy := typeHierarchy d |}.

Definition Declaration_set_typeHierarchy (h : option DeclarationHierarchy)
    (d : DeclarationReflection) : DeclarationReflection :=
  {| container := container d; type := type d;
     typeParameters := typeParameters d;
     signatures := signatures d; indexSignature := indexSignature d;
     getSignature := getSignature d; setSignature := setSignature d;
     defaultValue := defaultValue d; overwrites := overwrites d;
     inheritedFrom := inheritedFrom d;
     implementationOf := implementationOf d;
     extendedTypes := extendedTypes d; extendedBy := extendedBy d;
     implementedTypes := implementedTypes d;
     implementedBy := implementedBy d; typeHierarchy := h |}.

(** Write the [id] of a reflection object; an array has none. *)
Definition object_set_id (i : Z) (o : object) : object :=
  match o with
  | Project p =>
      Project (Container_set_reflection (Reflection_set_id i (reflection p)) p)
  | Declaration d =>
      Declaration
        (Declaration_set_container
           (Container_set_reflection
              (Reflection_set_id i (reflection (container d))) (container d))
           d)
  | Signature s =>
      Signature {| sig_reflection := Reflection_set_id i (sig_reflection s);
                   parameters := parameters s; sig_type := sig_type s |}
  | ParameterReflection r => ParameterReflection (Reflection_set_id i r)
  | Array items => Array items
  end.

(** Apply a field update to a declaration object; other objects are left
    as they are. *)
Definition on_declaration (f : DeclarationReflection → DeclarationReflection)
    (o : object) : object :=
  match o with
  | Declaration d => Declaration (f d)
  | _ => o
  end.

(** [children.push(c)] on a container object, creating the array when the
    field is unset. *)
Definition push_child (c : loc) (o : object) : object :=
  let push (k : ContainerReflection) :=
    Container_set_children (Some (default [] (children k) ++ [c])) k in
  match o with
  | Project p => Project (push p)
  | Declaration d => Declaration (Declaration_set_container (push (container d)) d)
  | _ => o
  end.

(** ** The world: object store, identity registry, scope, output files *)

(** Modelled from the spec: the Identity Registry (section 4.1), which is
    not among the sources.  It holds the next id to hand out, the flat
    index from id to reflection and the map from symbol identity to
    reflection. *)
Record Registry := {
  nextId : Z;
  reflections : gmap Z loc;
  symbols : gmap Z loc
}.

(** The object store, the registry, the current scope of the conversion
    context ([context.scope], section 4.2) and the files written. *)
Record World := {
  heap : list object;
  registry : Registry;
  scope : loc;
  files : gmap string string
}.

Definition set_heap (h : list object) (w : World) : World :=
  {| heap := h; registry := registry w; scope := scope w; files := files w |}.

Definition set_registry (r : Registry) (w : World) : World :=
  {| heap := heap w; registry := r; scope := scope w; files := files w |}.

Definition set_scope (s : loc) (w : World) : World :=
  {| heap := heap w; registry := registry w; scope := s; files := files w |}.

Definition set_files (f : gmap string string) (w : World) : World :=
  {| heap := heap w; registry := registry w; scope := scope w; files := f |}.

(** How a call ends: with a value, with a JavaScript exception, or stuck on
    a location that holds no object of the expected class (which no
    JavaScript run can reach: references do not dangle). *)
Inductive outcome (A : Type) : Type :=
| Returned (a : A)
| Thrown (e : string)
| Stuck.
Arguments Returned {A} a.
Arguments Thrown {A} e.
Arguments Stuck {A}.

Definition TypeError : string := "TypeError".

Definition M (A : Type) : Type := World → outcome A * World.

Definition ret {A : Type} (a : A) : M A := λ w, (Returned a, w).

Definition bind {A B : Type} (m : M A) (k : A → M B) : M B :=
  λ w, match m w with
       | (Returned a, w') => k a w'
       | (Thrown e, w') => (Thrown e, w')
       | (Stuck, w') => (Stuck, w')
       end.

Definition stuck {A : Type} : M A := λ w, (Stuck, w).
Definition throw {A : Type} (e : string) : M A := λ w, (Thrown e, w).
Definition gets {A : Type} (f : World → A) : M A := λ w, (Returned (f w), w).
Definition modify (f : World → World) : M unit := λ w, (Returned tt, f w).

Declare Scope js_scope.
Delimit Scope js_scope with js.
Notation "'let*' x := m 'in' k" := (bind m (λ x, k))
  (at level 10, x name, m at level 100, k at level 200) : js_scope.
Notation "m ;;; k" := (bind m (λ _, k))
  (at level 100, k at level 200, right associativity) : js_scope.
Open Scope js_scope.

(** *** Store operations *)

(** [new C(...)]: a fresh object. *)
Definition alloc (o : object) : M loc :=
  λ w, (Returned (length (heap w)), set_heap (heap w ++ [o]) w).

(** Read the object at a location. *)
Definition read (l : loc) : M object :=
  λ w, match heap w !! l with
       | Some o => (Returned o, w)
       | None => (Stuck, w)
       end.

(** Assign to fields of the object at a location. *)
Definition update (l : loc) (f : object → object) : M unit :=
  λ w, match heap w !! l with
       | Some o => (Returned tt, set_heap (<[l := f o]> (heap w)) w)
       | None => (Stuck, w)
       end.

(** Read the [Reflection] fields of the reflection at a location. *)
Definition read_reflection (l : loc) : M Reflection :=
  let* o := read l in
  match as_reflection o with
  | Some r => ret r
  | None => stuck
  end.

(** ** Identity Registry *)

Module IdentityRegistry.

(** The registry of a run whose ids start at [base]. *)
Definition empty (base : Z) : Registry :=
  {| nextId := base; reflections := ∅; symbols := ∅ |}.

(** Modelled from the spec: [allocate(reflection) -> id] assigns the next
    integer and records [id -> reflection]. *)
Definition allocate (l : loc) : M Z :=
  let* i := gets (λ w, nextId (registry w)) in
  update l (object_set_id i) ;;;
  modify (λ w, set_registry
                 {| nextId := i + 1;
                    reflections := <[i := l]> (reflections (registry w));
                    symbols := symbols (registry w) |} w) ;;;
  ret i.

(** Modelled from the spec: [registerSymbol(symbolId, reflection)]. *)
Definition registerSymbol (symbolId : Z) (l : loc) : M unit :=
  modify (λ w, set_registry
                 {| nextId := nextId (registry w);
                    reflections := reflections (registry w);
                    symbols := <[symbolId := l]> (symbols (registry w)) |} w).

(** Modelled from the spec: [lookupSymbol(symbolId) -> Reflection|absent]. *)
Definition lookupSymbol (symbolId : Z) : M (option loc) :=
  gets (λ w, symbols (registry w) !! symbolId).

End IdentityRegistry.

(** Modelled from the spec: the constructors of the reflection classes
    are not among the sources.  A reflection takes its id at creation
    (section 3): the object is created and the registry gives it the next
    id. *)
Definition new_reflection (o : object) : M loc :=
  let* l := alloc o in
  let* _ := IdentityRegistry.allocate l in
  ret l.

(** The world before anything is created. *)
Definition initial_world (base : Z) : World :=
  {| heap := []; registry := IdentityRegistry.empty base; scope := 0%nat;
     files := ∅ |}.

(** ** The front end *)

(** Modelled from the spec: what the type-checking front end supplies for a
    node (section 6): its syntax kind, name, symbol identity, comment, type
    annotation.  The TypeScript declarations are not among the sources. *)
Module ts.
Inductive SyntaxKind : Type :=
| GetAccessor
| SetAccessor
| OtherSyntaxKind (code : Z).

#[global] Instance SyntaxKind_eq_dec : EqDecision SyntaxKind.
Proof. solve_decision. Defined.

(** Type annotations and type descriptors are opaque to the converter;
    they are only handed on to the type converter. *)
Definition TypeNode : Type := string.
Definition Type_ : Type := string.

Record SignatureDeclaration := {
  kind : SyntaxKind;
  name : string;
  symbol : option Z;
  comment : option Comment;
  type : option TypeNode
}.
End ts.

(** ** Scope context *)

Module Context.

(** Modelled from the spec: [withScope(reflection, body)] makes
    [reflection] the current scope, runs [body], and restores the previous
    scope on every exit path, also when [body] fails (section 4.2).  The
    converter passes it the result of [createDeclaration], which may be
    [undefined]; no scope is opened then and the body does not run, which
    is what lets [convert] return [undefined] for such a node. *)
Definition withScope (reflection : option loc) (body : M unit) : M unit :=
  match reflection with
  | None => ret tt
  | Some l =>
      λ w, let oldScope := scope w in
           let '(r, w') := body (set_scope l w) in
           (r, set_scope oldScope w')
  end.

End Context.

(** ** Factories *)

(** [new Reflection(name, kind, parent)], before the id is given. *)
Definition new_Reflection (name : string) (kind : Z) (parent : option loc)
  : Reflection :=
  {| id := 0; name := name; kind := kind; flags := noFlags; comment := None;
     parent := parent; url := None; cssClasses := None |}.

Definition new_DeclarationReflection (name : string) (kind : Z)
    (parent : option loc) : DeclarationReflection :=
  {| container := {| reflection := new_Reflection name kind parent;
                     children := None |};
     type := None; typeParameters := None; signatures := None;
     indexSignature := None; getSignature := None; setSignature := None;
     defaultValue := None; overwrites := None; inheritedFrom := None;
     implementationOf := None; extendedTypes := None; extendedBy := None;
     implementedTypes := None; implementedBy := None;
     typeHierarchy := None |}.

Definition new_SignatureReflection (name : string) (kind : Z)
    (parent : option loc) : SignatureReflection :=
  {| sig_reflection := new_Reflection name kind parent;
     parameters := None; sig_type := None |}.

(** Modelled from the spec: [createComment] is not among the sources; the
    comment of a node is what the front end's [commentOf] gives (summary and
    tag list), absent when the node has none. *)
Definition createComment (node : ts.SignatureDeclaration) : option Comment :=
  ts.comment node.

(** Modelled from the spec: [createDeclaration] is not among the sources.
    Sections 3 and 4.3: a node with no resolvable symbol produces no
    reflection; a symbol maps to at most one Declaration, so a symbol
    already registered is fetched and the node merges into it; otherwise a
    Declaration is created in the current scope, registered under the
    symbol and appended to the scope's children. *)
Definition createDeclaration (node : ts.SignatureDeclaration) (kind : Z)
  : M (option loc) :=
  match ts.symbol node with
  | None => ret None
  | Some symbolId =>
      let* known := IdentityRegistry.lookupSymbol symbolId in
      match known with
      | Some l => ret (Some l)
      | None =>
          let* container := gets scope in
          let* l := new_reflection
                      (Declaration
                         (new_DeclarationReflection (ts.name node) kind
                            (Some container))) in
          IdentityRegistry.registerSymbol symbolId l ;;;
          update container (push_child l) ;;;
          ret (Some l)
      end
  end.

(** Modelled from the spec: [createSignature] is not among the sources.  A
    Signature is a leaf entity owned by one Declaration: it is created with
    the given name and kind under the current scope.  (Its parameters and
    return type come from the front end's [signatureOf] and play no part
    here.) *)
Definition createSignature (node : ts.SignatureDeclaration) (name : string)
    (kind : Z) : M loc :=
  let* owner := gets scope in
  new_reflection (Signature (new_SignatureReflection name kind (Some owner))).

(** ** The accessor converter (component [node:accessor]) *)

Module AccessorConverter.
Section convert.

(** [this.owner.convertType] and [context.getTypeAtLocation]: the type
    converter and the front end's type query, neither among the
    sources. *)
Variable convertType : option ts.TypeNode → option ts.Type_ → M (option Type_).
Variable getTypeAtLocation : ts.SignatureDeclaration → option ts.Type_.

Definition supports : list ts.SyntaxKind := [ts.GetAccessor; ts.SetAccessor].

(** The kind [convert] gives the declaration (lines 29-34).  Kinds are
    small non-negative integers, on which the 32-bit [&] of JavaScript is
    [Z.land]. *)
Definition declarationKind (scopeKind : Z) (comment : option Comment) : Z :=
  if negb (Z.land scopeKind ReflectionKind.ClassOrInterface =? 0) then
    match comment with
    | Some c => if hasTag c "constant" then ReflectionKind.Constant
                else ReflectionKind.Accessor
    | None => ReflectionKind.Accessor
    end
  else ReflectionKind.Accessor.

(** Lines 25-50. *)
Definition convert (node : ts.SignatureDeclaration) : M (option loc) :=
  let comment := createComment node in
  let* scope := gets scope in
  let* scopeReflection := read_reflection scope in
  let kind := declarationKind (kind scopeReflection) comment in
  let* declaration := createDeclaration node kind in
  Context.withScope declaration
    (match declaration with
     | None => throw TypeError
     | Some d =>
         if kind =? ReflectionKind.Constant then
           let* t := convertType (ts.type node) (getTypeAtLocation node) in
           update d (on_declaration (Declaration_set_type t))
         else if decide (ts.kind node = ts.GetAccessor) then
           let* s := createSignature node "__get" ReflectionKind.GetSignature in
           update d (on_declaration (Declaration_set_getSignature (Some s)))
         else
           let* s := createSignature node "__set" ReflectionKind.SetSignature in
           update d (on_declaration (Declaration_set_setSignature (Some s)))
     end) ;;;
  ret declaration.

End convert.
End AccessorConverter.

(** ** Serialised values *)

Inductive JValue : Type :=
| JNull
| JNum (n : Z)
| JStr (s : string)
| JBool (b : bool)
| JArr (items : list JValue)
| JObj (fields : gmap string JValue).

(** ** Methods of [DeclarationReflection] (declaration.ts) *)

(** [arg.split('.')]. *)
Fixpoint split (separator : Ascii.ascii) (s : string) : list string :=
  match s with
  | EmptyString => [EmptyString]
  | String c rest =>
      if Ascii.eqb c separator then EmptyString :: split separator rest
      else match split separator rest with
           | x :: xs => String c x :: xs
           | [] => [String c EmptyString]
           end
  end.

(** [Array.isArray(arg) ? arg : arg.split('.')]: the argument is a dotted
    name or a list of names. *)
Definition names_of (arg : string + list string) : list string :=
  match arg with
  | inl name => split "."%char name
  | inr names => names
  end.

Module DeclarationReflection.

(** Lines 123-125. *)
Definition hasGetterOrSetter (this : DeclarationReflection) : bool :=
  truthy (getSignature this) || truthy (setSignature this).

(** Read a field of the declaration at [this]. *)
Definition field {A : Type} (f : DeclarationReflection → A) (this : loc)
  : M A :=
  let* o := read this in
  match o with
  | Declaration d => ret (f d)
  | _ => stuck
  end.

Definition items_of (a : loc) : M (list loc) :=
  let* o := read a in
  match o with
  | Array items => ret items
  | _ => stuck
  end.

(** [a.concat(b)]: a new array, the elements of [a] then those of [b]. *)
Definition Array_concat (a b : loc) : M loc :=
  let* xs := items_of a in
  let* ys := items_of b in
  alloc (Array (xs ++ ys)).

(** [a.push(x)]: [a] itself grows. *)
Definition Array_push (a x : loc) : M unit :=
  let* xs := items_of a in
  update a (λ _, Array (xs ++ [x])).

(** Lines 127-144. *)
Definition getAllSignatures (this : loc) : M loc :=
  let* result := alloc (Array []) in
  let* signatures := field signatures this in
  let* result :=
    match signatures with
    | Some signatures => Array_concat result signatures
    | None => ret result
    end in
  let* indexSignature := field indexSignature this in
  match indexSignature with
  | Some s => Array_push result s
  | None => ret tt
  end ;;;
  let* getSignature := field getSignature this in
  match getSignature with
  | Some s => Array_push result s
  | None => ret tt
  end ;;;
  let* setSignature := field setSignature this in
  match setSignature with
  | Some s => Array_push result s
  | None => ret tt
  end ;;;
  ret result.

Section findReflectionByName.

(** [Reflection.getChildByName] and the [findReflectionByName] of the
    classes other than [DeclarationReflection]; neither is among the
    sources. *)
Variable getChildByName : list object → loc → list string → option loc.
Variable Reflection_findReflectionByName :
  list object → loc → list string → outcome (option loc).

(** Lines 162-197, on the list of names.  The recursion follows
    references through the store, so it is bounded by [fuel]; [None]
    means the bound was reached. *)
Fixpoint findReflectionByName_names (fuel : nat) (h : list object)
    (this : loc) (names : list string) (searchUp : bool)
  : option (outcome (option loc)) :=
  match fuel with
  | O => None
  | S fuel =>
      (* [r.findReflectionByName(names, searchUp)], dispatched on the
         class of [r] *)
      let call (r : loc) (searchUp : bool) :=
        match h !! r with
        | Some (Declaration _) =>
            findReflectionByName_names fuel h r names searchUp
        | Some (Array _) | None => Some Stuck
        | Some _ => Some (Reflection_findReflectionByName h r names)
        end in
      let walkTypeParents (child : DeclarationReflection) :=
        match extendedTypes child with
        | Some parents =>
            match parents !! 0%nat with
            | None => Some (Thrown TypeError)
            | Some firstParent =>
                match Type_reflection firstParent with
                | Some parentReflection => call parentReflection searchUp
                | None => Some (Returned None)
                end
            end
        | None => Some (Returned None)
        end in
      let searchParent (this : DeclarationReflection) :=
        match parent (reflection (container this)) with
        | Some p => call p false
        | None => Some (Returned None)
        end in
      match h !! this with
      | Some (Declaration d) =>
          match getChildByName h this names with
          | Some reflection => Some (Returned (Some reflection))
          | None =>
              if searchUp && truthy (extendedTypes d) then
                match walkTypeParents d with
                | Some (Returned None) => searchParent d
                | inheritedReflection => inheritedReflection
                end
              else searchParent d
          end
      | _ => Some Stuck
      end
  end.

(** [r.findReflectionByName(names, searchUp)] with [fuel] left: the
    method of the class of [r]. *)
Definition call (fuel : nat) (h : list object) (r : loc)
    (names : list string) (searchUp : bool)
  : option (outcome (option loc)) :=
  match h !! r with
  | Some (Declaration _) =>
      findReflectionByName_names fuel h r names searchUp
  | Some (Array _) | None => Some Stuck
  | Some _ => Some (Reflection_findReflectionByName h r names)
  end.

(** Lines 190-195: the search goes on in the parent. *)
Definition searchParent (fuel : nat) (h : list object)
    (this : DeclarationReflection) (names : list string)
  : option (outcome (option loc)) :=
  match parent (reflection (container this)) with
  | Some p => call fuel h p names false
  | None => Some (Returned None)
  end.

Definition findReflectionByName (fuel : nat) (h : list object)
    (this : loc) (arg : string + list string) (searchUp : bool)
  : option (outcome (option loc)) :=
  findReflectionByName_names fuel h this (names_of arg) searchUp.

End findReflectionByName.

Section toObject.

(** [Type.toObject] is not among the sources. *)
Variable Type_toObject : Type_ → JValue.

(** Lines 239-279, given the object [super.toObject()] returned. *)
Definition toObject (super_toObject : gmap string JValue)
    (this : DeclarationReflection) : gmap string JValue :=
  let result := super_toObject in
  let result := match type this with
                | Some t => <["type" := Type_toObject t]> result
                | None => result
                end in
  let result := if truthy_string (defaultValue this)
                then <["defaultValue" := JStr (default "" (defaultValue this))]> result
                else result in
  let result := match overwrites this with
                | Some t => <["overwrites" := Type_toObject t]> result
                | None => result
                end in
  let result := match inheritedFrom this with
                | Some t => <["inheritedFrom" := Type_toObject t]> result
                | None => result
                end in
  let result := match extendedTypes this with
                | Some ts => <["extendedTypes" := JArr (map Type_toObject ts)]> result
                | None => result
                end in
  let result := match extendedBy this with
                | Some ts => <["extendedBy" := JArr (map Type_toObject ts)]> result
                | None => result
                end in
  let result := match implementedTypes this with
                | Some ts => <["implementedTypes" := JArr (map Type_toObject ts)]> result
                | None => result
                end in
  let result := match implementedBy this with
                | Some ts => <["implementedBy" := JArr (map Type_toObject ts)]> result
                | None => result
                end in
  let result := match implementationOf this with
                | Some t => <["implementationOf" := Type_toObject t]> result
                | None => result
                end in
  result.

End toObject.

End DeclarationReflection.

(** ** Serialisation of the graph *)

Module Serializer.
Section toObject.

Variable Type_toObject : Type_ → JValue.

Definition flags_toObject (f : ReflectionFlags) : JValue :=
  JObj (list_to_map
          (omap (λ '(key, b), if b : bool then Some (key, JBool true) else None)
             [("isExported", isExported f); ("isPrivate", isPrivate f);
              ("isProtected", isProtected f); ("isPublic", isPublic f);
              ("isStatic", isStatic f); ("isAbstract", isAbstract f);
              ("isOptional", isOptional f); ("isRest", isRest f);
              ("isExternal", isExternal f)])).

Definition Comment_toObject (c : Comment) : JValue :=
  JObj (<["summary" := JStr (summary c)]>
          (<["tags" := JArr (map JStr (tags c))]> ∅)).

(** [result[key] = value] when the field is set. *)
Definition put_when_set (key : string) (value : option JValue)
    (result : gmap string JValue) : gmap string JValue :=
  match value with
  | Some v => <[key := v]> result
  | None => result
  end.

(** Modelled from the spec: [Reflection.toObject], which
    [DeclarationReflection.toObject] calls as [super.toObject()], is not
    among the sources.  It writes the fields of the schema of section 6
    that belong to every reflection: [id], [name], [kind], [flags], and
    [comment] when there is one. *)
Definition Reflection_toObject (r : Reflection) : gmap string JValue :=
  put_when_set "comment" (Comment_toObject <$> comment r)
    (<["flags" := flags_toObject (flags r)]>
       (<["kind" := JNum (kind r)]>
          (<["name" := JStr (name r)]>
             (<["id" := JNum (id r)]> ∅)))).

(** [result[key]] becomes the list of the serialised reflections [ls],
    when that field is set. *)
Definition owned (serialise : loc → option JValue) (key : string)
    (ls : option (list loc)) (result : gmap string JValue)
  : option (gmap string JValue) :=
  match ls with
  | Some ls =>
      objs ← mapM serialise ls;
      Some (<[key := JArr objs]> result)
  | None => Some result
  end.

(** The elements of the [signatures] array of a declaration. *)
Definition signatures_of (h : list object) (d : DeclarationReflection)
  : option (option (list loc)) :=
  match signatures d with
  | Some a =>
      match h !! a with
      | Some (Array items) => Some (Some items)
      | _ => None
      end
  | None => Some None
  end.

(** Modelled from the spec: the serialised form of the reflection at
    [l], following the schema of section 6: the fields above, the owned
    reflections ([children], [signatures], [parameters],
    [typeParameters]) serialised in place and in order, each list present
    only when the field is set, and for a Declaration what
    [DeclarationReflection.toObject] adds.  The owned reflections are
    reached through the store, so the recursion is bounded by [fuel]. *)
Fixpoint toObject (fuel : nat) (h : list object) (l : loc) : option JValue :=
  match fuel with
  | O => None
  | S fuel =>
      match h !! l with
      | Some (Project p) =>
          JObj <$> owned (toObject fuel h) "children" (children p)
                     (Reflection_toObject (reflection p))
      | Some (Declaration d) =>
          signatures ← signatures_of h d;
          result ← owned (toObject fuel h) "children"
                     (children (container d))
                     (Reflection_toObject (reflection (container d)));
          result ← owned (toObject fuel h) "signatures" signatures result;
          result ← owned (toObject fuel h) "typeParameters"
                     (typeParameters d) result;
          Some (JObj (DeclarationReflection.toObject Type_toObject result d))
      | Some (Signature s) =>
          result ← owned (toObject fuel h) "parameters" (parameters s)
                     (Reflection_toObject (sig_reflection s));
          Some (JObj (put_when_set "type" (Type_toObject <$> sig_type s) result))
      | Some (ParameterReflection r) => Some (JObj (Reflection_toObject r))
      | Some (Array _) | None => None
      end
  end.

End toObject.

(** The basic shape of a reflection: its name, its kind and the number of
    its signatures. *)
Record Shape := {
  shape_name : string;
  shape_kind : Z;
  shape_signatures : nat
}.

(** Shape of the reflection at [l] in the graph. *)
Definition shape_of_reflection (h : list object) (l : loc) : option Shape :=
  match h !! l with
  | Some (Declaration d) =>
      let r := reflection (container d) in
      signatures ← signatures_of h d;
      Some {| shape_name := name r; shape_kind := kind r;
              shape_signatures := length (default [] signatures) |}
  | Some o =>
      r ← as_reflection o;
      Some {| shape_name := name r; shape_kind := kind r;
              shape_signatures := 0 |}
  | None => None
  end.

(** Shape read back from a serialised reflection. *)
Definition shape_of_object (v : JValue) : option Shape :=
  match v with
  | JObj fields =>
      match fields !! "name", fields !! "kind" with
      | Some (JStr n), Some (JNum k) =>
          match fields !! "signatures" with
          | Some (JArr sigs) =>
              Some {| shape_name := n; shape_kind := k;
                      shape_signatures := length sigs |}
          | Some _ => None
          | None => Some {| shape_name := n; shape_kind := k;
                            shape_signatures := 0 |}
          end
      | _, _ => None
      end
  | _ => None
  end.

(** The reflections an object owns. *)
Definition owned_by (h : list object) (o : object) : list loc :=
  match o with
  | Project p => default [] (children p)
  | Declaration d =>
      default [] (children (container d))
      ++ default [] (mjoin (signatures_of h d))
      ++ default [] (typeParameters d)
  | Signature s => default [] (parameters s)
  | ParameterReflection _ | Array _ => []
  end.

Definition is_reflection (h : list object) (l : loc) : bool :=
  match h !! l with
  | Some o => truthy (as_reflection o)
  | None => false
  end.

(** The store is a finished graph for serialisation when every [signatures]
    field names an array and every owned reflection is a reflection of
    strictly smaller [rank] than its owner (ownership has no cycle). *)
Definition object_ok (rank : loc → nat) (h : list object) (l : loc)
    (o : object) : bool :=
  match o with
  | Declaration d => truthy (signatures_of h d)
  | _ => true
  end
  && forallb (λ c, is_reflection h c && bool_decide (rank c < rank l)%nat)
       (owned_by h o).

Definition graph_ok (rank : loc → nat) (h : list object) : bool :=
  forallb (λ '(l, o), object_ok rank h l o) (imap pair h).

End Serializer.

(** ** The search index plugin (output/plugins/JavascriptIndexPlugin.ts) *)

Module JavascriptIndexPlugin.

Record Row := {
  row_id : nat;
  row_kind : Z;
  fullName : string;
  row_url : option string;
  classes : option string;
  row_parent : option string
}.

Record RendererEvent := {
  outputDirectory : string
}.

(** [for (let key in o)] visits integer keys in ascending order. *)
Definition keys_in_order (m : gmap Z loc) : list Z :=
  merge_sort Z.le (map fst (map_to_list m)).

(** [writeFile(fileName, data, false)]. *)
Definition writeFile (fileName data : string) : M unit :=
  modify (λ w, set_files (<[fileName := data]> (files w)) w).

Section onRendererBegin.

(** [Reflection.getFullName], [JSON.stringify] and [Path.join] are not
    among the sources.  [getFullName] is a method of the graph and is
    given the store. *)
Variable getFullName : loc → M string.
Variable JSON_stringify : list Row → string.
Variable Path_join : list string → string.

(** Lines 31-61: one turn of the loop, for the reflection under [key];
    [rows] is the array built so far. *)
Definition visit (key : Z) (rows : list Row) : M (list Row) :=
  let* index := gets (λ w, reflections (registry w)) in
  match index !! key with
  | None => stuck
  | Some l =>
      let* o := read l in
      match o with
      | Declaration d =>
          let reflection := reflection (container d) in
          if negb (truthy_string (url reflection))
             || negb (truthy_string (Some (name reflection)))
             || isExternal (flags reflection)
             || String.eqb (name reflection) ""
          then ret rows
          else
            let* parent :=
              match parent reflection with
              | Some p =>
                  let* po := read p in
                  match po with
                  | Project _ => ret None
                  | _ => ret (Some p)
                  end
              | None => ret None
              end in
            let row := {| row_id := length rows;
                          row_kind := kind reflection;
                          fullName := name reflection;
                          row_url := url reflection;
                          classes := cssClasses reflection;
                          row_parent := None |} in
            let* row :=
              match parent with
              | Some p =>
                  let* parentName := getFullName p in
                  ret {| row_id := row_id row; row_kind := row_kind row;
                         fullName := parentName +:+ "." +:+ name reflection;
                         row_url := row_url row; classes := classes row;
                         row_parent := Some parentName |}
              | None => ret row
              end in
            ret (rows ++ [row])
      | _ => ret rows
      end
  end.

Fixpoint visit_all (keys : list Z) (rows : list Row) : M (list Row) :=
  match keys with
  | [] => ret rows
  | key :: keys =>
      let* rows := visit key rows in
      visit_all keys rows
  end.

Definition banner : string :=
  "/* Copyright (C) 1998-2019 by Northwoods Software Corporation. All Rights Reserved. */
            var typedoc = typedoc || {};
            typedoc.search = typedoc.search || {};
            typedoc.search.data = ".

(** Lines 27-72. *)
Definition onRendererBegin (event : RendererEvent) : M unit :=
  let* keys := gets (λ w, keys_in_order (reflections (registry w))) in
  let* rows := visit_all keys [] in
  let fileName :=
    Path_join [outputDirectory event; "assets"; "js"; "search.js"] in
  let data := banner +:+ JSON_stringify rows +:+ ";" in
  writeFile fileName data.

End onRendererBegin.

End JavascriptIndexPlugin.

(** ** Reference Resolver: type hierarchies *)

Module ReferenceResolver.

(** The declarations a list of types refers to, once resolved. *)
Definition extendedTypes_of (h : list object) (t : Type_) : list Type_ :=
  match Type_reflection t with
  | Some l =>
      match h !! l with
      | Some (Declaration d) => default [] (extendedTypes d)
      | _ => []
      end
  | None => []
  end.

(** Modelled from the spec: the resolver is not among the sources.
    Section 4.5: the hierarchy is computed by walking [extendedTypes]
    recursively, one layer per ancestor level.  [ancestorLevels] lists the
    levels from the nearest one up; a level with no type ends the walk,
    and [fuel] bounds it on a graph whose [extends] edges form a cycle. *)
Fixpoint ancestorLevels (fuel : nat) (h : list object) (level : list Type_)
  : list (list Type_) :=
  match fuel with
  | O => []
  | S fuel =>
      match level with
      | [] => []
      | _ => level :: ancestorLevels fuel h (concat (map (extendedTypes_of h) level))
      end
  end.

(** [isTarget] is written on the target layer only. *)
Definition flag (target : bool) : option bool :=
  if target then Some true else None.

(** A tail-terminated chain of layers; each layer comes with its target
    flag. *)
Fixpoint chain (layers : list (list Type_ * bool))
  : option DeclarationHierarchy :=
  match layers with
  | [] => None
  | (types, target) :: layers =>
      Some (mkDeclarationHierarchy types (chain layers) (flag target))
  end.

(** Modelled from the spec: the chain runs from the farthest ancestor
    level down to the layer of the originating Declaration, which is a
    resolved reference to it and is the one flagged [isTarget]. *)
Definition computeTypeHierarchy (h : list object) (symbolId : Z) (l : loc)
    (d : DeclarationReflection) : option DeclarationHierarchy :=
  let levels := ancestorLevels (length h) h (default [] (extendedTypes d)) in
  chain (map (λ types, (types, false)) (rev levels)
         ++ [([ReferenceType (name (reflection (container d))) symbolId (Some l)],
              true)]).

(** The resolver's step for the Declaration registered under a symbol. *)
Definition resolveTypeHierarchy (symbolId : Z) (l : loc) : M unit :=
  let* h := gets heap in
  let* d := DeclarationReflection.field (λ d, d) l in
  update l (on_declaration
              (Declaration_set_typeHierarchy
                 (computeTypeHierarchy h symbolId l d))).

(** The layers of a chain, from its head. *)
Fixpoint layers (hierarchy : DeclarationHierarchy)
  : list (list Type_ * option bool) :=
  match hierarchy with
  | mkDeclarationHierarchy types next isTarget =>
      (types, isTarget)
      :: match next with
         | Some next => layers next
         | None => []
         end
  end.

(** The layers flagged [isTarget = true]. *)
Definition targets (hierarchy : DeclarationHierarchy) : list (list Type_) :=
  map fst (filter (λ layer, layer.2 = Some true) (layers hierarchy)).

End ReferenceResolver.

(** ** Stand-ins for the methods of other classes *)

(** Modelled from the spec: [Reflection.getChildByName] is not among the
    sources.  Section 3: children are looked up by name, in insertion
    order; a list of names is a path, each name looked up among the
    children of the reflection found for the one before. *)
Fixpoint getChildByName (h : list object) (this : loc) (names : list string)
  : option loc :=
  match names with
  | [] => None
  | first :: rest =>
      let children :=
        match h !! this with
        | Some (Project p) => default [] (children p)
        | Some (Declaration d) => default [] (children (container d))
        | _ => []
        end in
      let named (c : loc) :=
        match h !! c with
        | Some o => match as_reflection o with
                    | Some r => String.eqb (name r) first
                    | None => false
                    end
        | None => false
        end in
      match List.find named children, rest with
      | Some c, [] => Some c
      | Some c, _ => getChildByName h c rest
      | None, _ => None
      end
  end.

(** A reflection that is not a declaration finds a name among its own
    children only (used where an example needs the method of the other
    classes). *)
Definition Reflection_findReflectionByName (h : list object) (this : loc)
    (names : list string) : outcome (option loc) :=
  Returned (getChildByName h this names).

(** The full name of a reflection taken to be its own name (used where an
    example needs [getFullName]). *)
Definition getFullName (l : loc) : M string :=
  let* r := read_reflection l in
  ret (name r).


(** ** Vocabulary of the statements *)

(** The object at [l] is a Declaration. *)
Definition is_declaration (h : list object) (l : loc) : bool :=
  match h !! l with
  | Some (Declaration _) => true
  | _ => false
  end.

(** The id of the reflection at [l]. *)
Definition id_at (w : World) (l : loc) : option Z :=
  o ← heap w !! l; id <$> as_reflection o.

(** A field update that leaves the id alone. *)
Definition keeps_id (f : object → object) : Prop :=
  ∀ o, id <$> as_reflection (f o) = id <$> as_reflection o.

(** One step of a run: a reflection is constructed, an array is created,
    fields other than the id are written, a symbol is registered, the scope
    moves, a file is written.  The operations of the converter are made of
    these. *)
Inductive step : World → World → Prop :=
| step_construct o w :
    is_Some (as_reflection o) → step w (new_reflection o w).2
| step_array items w :
    step w (alloc (Array items) w).2
| step_update l f w :
    keeps_id f → step w (update l f w).2
| step_registerSymbol symbolId l w :
    step w (IdentityRegistry.registerSymbol symbolId l w).2
| step_scope s w :
    step w (set_scope s w)
| step_files f w :
    step w (set_files f w).

(** A computation whose effect on the world is a sequence of steps. *)
Definition steps {A : Type} (m : M A) : Prop :=
  ∀ w, rtc step w (m w).2.

(** The registry and the store agree: the index sends the id of every
    reflection to that reflection, and the ids handed out are exactly those
    from [base] up to the next one. *)
Record registry_ok (base : Z) (w : World) : Prop := {
  ok_base : base ≤ nextId (registry w);
  ok_indexed : ∀ l i, id_at w l = Some i →
                      reflections (registry w) !! i = Some l;
  ok_index : ∀ i l, reflections (registry w) !! i = Some l →
                    base ≤ i < nextId (registry w) ∧ id_at w l = Some i;
  ok_dense : ∀ i, base ≤ i < nextId (registry w) →
                  is_Some (reflections (registry w) !! i)
}.

(** Every registered symbol names a Declaration of the store. *)
Definition symbols_name_declarations (w : World) : Prop :=
  map_Forall (λ _ l, is_declaration (heap w) l = true) (symbols (registry w)).

(** [convert] takes the constant path for [node] in the current scope. *)
Definition converted_as_constant (w : World) (node : ts.SignatureDeclaration)
  : bool :=
  match heap w !! scope w with
  | Some o =>
      match as_reflection o with
      | Some r =>
          AccessorConverter.declarationKind (kind r) (createComment node)
          =? ReflectionKind.Constant
      | None => false
      end
  | None => false
  end.

(** The signature [convert] creates for an accessor node, and the field it
    assigns it to. *)
Definition accessor_signature (node : ts.SignatureDeclaration) (i : Z)
    (owner : loc) : SignatureReflection :=
  {| sig_reflection :=
       Reflection_set_id i
         (if decide (ts.kind node = ts.GetAccessor)
          then new_Reflection "__get" ReflectionKind.GetSignature (Some owner)
          else new_Reflection "__set" ReflectionKind.SetSignature (Some owner));
     parameters := None; sig_type := None |}.

Definition attach_signature (node : ts.SignatureDeclaration) (s : loc)
    (d : DeclarationReflection) : DeclarationReflection :=
  if decide (ts.kind node = ts.GetAccessor)
  then Declaration_set_getSignature (Some s) d
  else Declaration_set_setSignature (Some s) d.

(** The keys [DeclarationReflection.toObject] writes. *)
Definition declaration_keys : list string :=
  ["type"; "defaultValue"; "overwrites"; "inheritedFrom"; "extendedTypes";
   "extendedBy"; "implementedTypes"; "implementedBy"; "implementationOf"].

(** Rewrite the [extendedTypes] of every declaration with [f]. *)
Definition map_extendedTypes (f : option (list Type_) → option (list Type_))
    (o : object) : object :=
  on_declaration (λ d, Declaration_set_extendedTypes (f (extendedTypes d)) d) o.

(** A computation that writes no object of the store. *)
Definition keeps_heap {A : Type} (m : M A) : Prop :=
  ∀ w, heap (m w).2 = heap w.

(** ** Example graphs *)

Module Examples.

Definition reflection_of (i : Z) (name : string) (kind : Z)
    (parent : option loc) (url : option string) : Reflection :=
  {| id := i; name := name; kind := kind; flags := noFlags;
     comment := None; parent := parent; url := url; cssClasses := None |}.

Definition declaration_of (r : Reflection) (children : option (list loc))
    (signatures indexSignature getSignature setSignature : option loc)
    (defaultValue : option string) (extendedTypes : option (list Type_))
  : DeclarationReflection :=
  {| container := {| reflection := r; children := children |};
     type := None; typeParameters := None; signatures := signatures;
     indexSignature := indexSignature; getSignature := getSignature;
     setSignature := setSignature; defaultValue := defaultValue;
     overwrites := None; inheritedFrom := None; implementationOf := None;
     extendedTypes := extendedTypes; extendedBy := None;
     implementedTypes := None; implementedBy := None;
     typeHierarchy := None |}.

Definition signature_of (r : Reflection) : SignatureReflection :=
  {| sig_reflection := r; parameters := None; sig_type := None |}.

(** A project whose class [Panel] is the current scope. *)
Definition panel_world : World :=
  {| heap :=
       [Project {| reflection := reflection_of 0 "docs" ReflectionKind.Global
                                   None None;
                   children := Some [1%nat] |};
        Declaration
          (declaration_of
             (reflection_of 1 "Panel" ReflectionKind.Class (Some 0%nat)
                (Some "classes/panel.html"))
             None None None None None None None)];
     registry := {| nextId := 2;
                    reflections := {[0 := 0%nat; 1 := 1%nat]};
                    symbols := {[100 := 1%nat]} |};
     scope := 1%nat;
     files := ∅ |}.

Definition getter : ts.SignatureDeclaration :=
  {| ts.kind := ts.GetAccessor; ts.name := "margin"; ts.symbol := Some 101;
     ts.comment := Some {| summary := "Gets or sets the margin.";
                           tags := [] |};
     ts.type := Some "number" |}.

Definition setter : ts.SignatureDeclaration :=
  {| ts.kind := ts.SetAccessor; ts.name := "margin"; ts.symbol := Some 101;
     ts.comment := None; ts.type := None |}.

(** A getter documented with the [constant] tag. *)
Definition constant_getter : ts.SignatureDeclaration :=
  {| ts.kind := ts.GetAccessor; ts.name := "margin"; ts.symbol := Some 101;
     ts.comment := Some {| summary := "The margin."; tags := ["constant"] |};
     ts.type := Some "number" |}.

Definition convertType (node : option ts.TypeNode) (type : option ts.Type_)
  : M (option Type_) :=
  ret (IntrinsicType <$> type).

Definition getTypeAtLocation (node : ts.SignatureDeclaration)
  : option ts.Type_ :=
  ts.type node.

(** The worlds the converter leaves behind. *)
Definition after_getter : World :=
  (AccessorConverter.convert convertType getTypeAtLocation getter
     panel_world).2.

Definition after_constant_getter : World :=
  (AccessorConverter.convert convertType getTypeAtLocation constant_getter
     panel_world).2.

Definition after_constant_pair : World :=
  (AccessorConverter.convert convertType getTypeAtLocation setter
     after_constant_getter).2.

(** A run that constructs two reflections, ids starting at 5. *)
Definition one_reflection : World :=
  (new_reflection
     (Project {| reflection := reflection_of 0 "docs" ReflectionKind.Global
                                 None None;
                 children := None |})
     (initial_world 5)).2.

Definition two_reflections : World :=
  (new_reflection
     (Declaration
        (declaration_of
           (reflection_of 0 "Panel" ReflectionKind.Class (Some 0%nat) None)
           None None None None None None None))
     one_reflection).2.

(** Two classes, [Dog] extending [Animal] and an unresolved [Pet]; an
    accessor pair and a method with two overloads. *)
Definition docs : ContainerReflection :=
  {| reflection := reflection_of 0 "docs" ReflectionKind.Global None None;
     children := Some [1%nat; 5%nat] |}.

Definition animal : DeclarationReflection :=
  declaration_of
    (reflection_of 1 "Animal" ReflectionKind.Class (Some 0%nat)
       (Some "classes/animal.html"))
    (Some [2%nat]) None None None None None None.

Definition name_accessor : DeclarationReflection :=
  declaration_of
    (reflection_of 2 "name" ReflectionKind.Accessor (Some 1%nat)
       (Some "classes/animal.html#name"))
    None None None (Some 3%nat) (Some 4%nat) None None.

Definition dog : DeclarationReflection :=
  declaration_of
    (reflection_of 5 "Dog" ReflectionKind.Class (Some 0%nat)
       (Some "classes/dog.html"))
    (Some [6%nat]) None None None None None
    (Some [ReferenceType "Animal" 200 (Some 1%nat);
           ReferenceType "Pet" 201 None]).

Definition bark : DeclarationReflection :=
  declaration_of
    (reflection_of 6 "bark" ReflectionKind.Method (Some 5%nat)
       (Some "classes/dog.html#bark"))
    None (Some 7%nat) None None None None None.

Definition zoo : list object :=
  [Project docs;
   Declaration animal;
   Declaration name_accessor;
   Signature (signature_of
                (reflection_of 3 "__get" ReflectionKind.GetSignature
                   (Some 2%nat) None));
   Signature (signature_of
                (reflection_of 4 "__set" ReflectionKind.SetSignature
                   (Some 2%nat) None));
   Declaration dog;
   Declaration bark;
   Array [8%nat; 9%nat];
   Signature (signature_of
                (reflection_of 7 "bark" ReflectionKind.CallSignature
                   (Some 6%nat) None));
   Signature (signature_of
                (reflection_of 8 "bark" ReflectionKind.CallSignature
                   (Some 6%nat) None))].

(** A property whose default value is the empty string. *)
Definition label : DeclarationReflection :=
  declaration_of
    (reflection_of 1 "label" ReflectionKind.Property (Some 0%nat) None)
    None None None None None (Some "") None.

Definition zoo_world : World :=
  {| heap := zoo;
     registry :=
       {| nextId := 9;
          reflections := {[0 := 0%nat; 1 := 1%nat; 2 := 2%nat; 3 := 3%nat;
                           4 := 4%nat; 5 := 5%nat; 6 := 6%nat; 7 := 8%nat;
                           8 := 9%nat]};
          symbols := {[200 := 1%nat; 202 := 5%nat; 203 := 2%nat;
                       204 := 6%nat]} |};
     scope := 0%nat;
     files := ∅ |}.

(** Ownership in [zoo] goes from smaller to larger locations. *)
Definition zoo_rank (l : loc) : nat := (10 - l)%nat.

(** A class whose [extendedTypes] array was created and left empty. *)
Definition widget : list object :=
  [Project {| reflection := reflection_of 0 "docs" ReflectionKind.Global
                              None None;
              children := Some [1%nat] |};
   Declaration
     (declaration_of
        (reflection_of 1 "Widget" ReflectionKind.Class (Some 0%nat)
           (Some "classes/widget.html"))
        None None None None None None (Some []))].

Definition Type_toObject (t : Type_) : JValue :=
  match t with
  | IntrinsicType name => JObj {["type" := JStr "intrinsic";
                                 "name" := JStr name]}
  | ReferenceType name _ _ => JObj {["type" := JStr "reference";
                                     "name" := JStr name]}
  | _ => JObj {["type" := JStr "unknown"]}
  end.

Definition JSON_stringify (rows : list JavascriptIndexPlugin.Row) : string :=
  String.concat ","
    (map (λ row, JavascriptIndexPlugin.fullName row) rows).

Definition Path_join (parts : list string) : string :=
  String.concat "/" parts.

End Examples.

(** ** Traversal and printing of a declaration (declaration.ts) *)

(** The [TraverseProperty] values [DeclarationReflection.traverse] passes to
    its callback.  The enumeration is declared in
    models/reflections/abstract.ts, which is not among the sources; its
    other members are passed by other classes only. *)
Module TraverseProperty.
Inductive TraverseProperty : Type :=
| TypeParameter
| TypeLiteral
| Signatures
| IndexSignature
| GetSignature
| SetSignature.

#[global] Instance TraverseProperty_eq_dec : EqDecision TraverseProperty.
Proof. solve_decision. Defined.
End TraverseProperty.

(** [TraverseCallback]: called with a reflection and the property it was
    found under; what it returns is ignored. *)
Abbreviation TraverseCallback :=
  (nat → TraverseProperty.TraverseProperty → M unit) (only parsing).

(** [items.forEach(f)]. *)
Fixpoint forEach (items : list loc) (f : loc → M unit) : M unit :=
  match items with
  | [] => ret tt
  | x :: items => f x ;;; forEach items f
  end.

Module Traversal.
Section traverse.

(** [ContainerReflection.traverse], called as [super.traverse(callback)],
    is not among the sources. *)
Variable super_traverse : TraverseCallback → loc → M unit.

(** Lines 207-233.  [a.slice().forEach(f)] runs [f] over the elements the
    array has when the statement starts; the copy itself is never seen by
    anyone else and is not given a place in the store. *)
Definition traverse (callback : TraverseCallback) (this : loc) : M unit :=
  let* typeParameters := DeclarationReflection.field typeParameters this in
  match typeParameters with
  | Some typeParameters =>
      forEach typeParameters
        (λ parameter, callback parameter TraverseProperty.TypeParameter)
  | None => ret tt
  end ;;;
  let* type := DeclarationReflection.field type this in
  match type with
  | Some (ReflectionType declaration) =>
      callback declaration TraverseProperty.TypeLiteral
  | _ => ret tt
  end ;;;
  let* signatures := DeclarationReflection.field signatures this in
  match signatures with
  | Some signatures =>
      let* copy := DeclarationReflection.items_of signatures in
      forEach copy (λ signature, callback signature TraverseProperty.Signatures)
  | None => ret tt
  end ;;;
  let* indexSignature := DeclarationReflection.field indexSignature this in
  match indexSignature with
  | Some s => callback s TraverseProperty.IndexSignature
  | None => ret tt
  end ;;;
  let* getSignature := DeclarationReflection.field getSignature this in
  match getSignature with
  | Some s => callback s TraverseProperty.GetSignature
  | None => ret tt
  end ;;;
  let* setSignature := DeclarationReflection.field setSignature this in
  match setSignature with
  | Some s => callback s TraverseProperty.SetSignature
  | None => ret tt
  end ;;;
  super_traverse callback this.

End traverse.

Section toString.

(** [Reflection.toString], called as [super.toString()], and
    [Type.toString] are not among the sources. *)
Variable Type_toString : Type_ → string.

(** [parameter.name] for each type parameter; [None] when one of them is
    not a reflection of the store. *)
Definition names_at (h : list object) (ls : list loc) : option (list string) :=
  mapM (λ l, o ← h !! l; name <$> as_reflection o) ls.

(** Lines 284-300, given the string [super.toString()] returned. *)
Definition toString (super_toString : string) (h : list object)
    (this : DeclarationReflection) : option string :=
  let result := super_toString in
  result ← match typeParameters this with
           | Some typeParameters =>
               parameters ← names_at h typeParameters;
               Some (result +:+ "<" +:+ String.concat ", " parameters +:+ ">")
           | None => Some result
           end;
  match type this with
  | Some t => Some (result +:+ ":" +:+ Type_toString t)
  | None => Some result
  end.

End toString.
End Traversal.

(** ** More vocabulary *)

(** The calls [traverse] makes before it hands over to [super.traverse]:
    the reflection and the property of each, in order; [signatures] are the
    elements of the declaration's [signatures] array. *)
Definition own_visits (d : DeclarationReflection) (signatures : list loc)
  : list (loc * TraverseProperty.TraverseProperty) :=
  map (λ p, (p, TraverseProperty.TypeParameter)) (default [] (typeParameters d))
  ++ match type d with
     | Some (ReflectionType declaration) =>
         [(declaration, TraverseProperty.TypeLiteral)]
     | _ => []
     end
  ++ map (λ s, (s, TraverseProperty.Signatures)) signatures
  ++ map (λ s, (s, TraverseProperty.IndexSignature))
       (option_list (indexSignature d))
  ++ map (λ s, (s, TraverseProperty.GetSignature))
       (option_list (getSignature d))
  ++ map (λ s, (s, TraverseProperty.SetSignature))
       (option_list (setSignature d)).

(** Call [callback] on each visit in turn, then go on with [k]. *)
Fixpoint visit_then (visits : list (loc * TraverseProperty.TraverseProperty))
    (callback : TraverseCallback) (k : M unit) : M unit :=
  match visits with
  | [] => k
  | (child, property) :: visits =>
      callback child property ;;; visit_then visits callback k
  end.

(** The property is one of those a signature is visited under. *)
Definition is_signature_property (p : TraverseProperty.TraverseProperty)
  : bool :=
  match p with
  | TraverseProperty.Signatures | TraverseProperty.IndexSignature
  | TraverseProperty.GetSignature | TraverseProperty.SetSignature => true
  | _ => false
  end.

(** A computation that leaves the whole world as it found it. *)
Definition keeps_world {A : Type} (m : M A) : Prop :=
  ∀ w, (m w).2 = w.

(** The string holds no dot. *)
Fixpoint dotless (s : string) : bool :=
  match s with
  | EmptyString => true
  | String c rest => negb (Ascii.eqb c "."%char) && dotless rest
  end.

(** The rows of the search index are well formed: a row links somewhere,
    and its full name is the name of the reflection, after the name of its
    parent and a dot when it has one. *)
Definition row_ok (row : JavascriptIndexPlugin.Row) : Prop :=
  truthy_string (JavascriptIndexPlugin.row_url row) = true
  ∧ match JavascriptIndexPlugin.row_parent row with
    | Some parentName =>
        ∃ name, name ≠ ""
                ∧ JavascriptIndexPlugin.fullName row
                  = parentName +:+ "." +:+ name
    | None => JavascriptIndexPlugin.fullName row ≠ ""
    end.

(** The edges [findReflectionByName] follows lead to reflections of
    smaller [rank]: the parent of a declaration, and the reflection of the
    first of its extended types. *)
Definition search_edges_descend (rank : loc → nat) (h : list object) : Prop :=
  ∀ l d, h !! l = Some (Declaration d) →
    (∀ p, parent (reflection (container d)) = Some p → (rank p < rank l)%nat)
    ∧ (∀ first rest p,
         extendedTypes d = Some (first :: rest) →
         Type_reflection first = Some p → (rank p < rank l)%nat).

(** No declaration of the store has an [extendedTypes] array that is
    empty. *)
Definition no_empty_extendedTypes (h : list object) : Prop :=
  ∀ l d, h !! l = Some (Declaration d) → extendedTypes d ≠ Some [].


(** The object is the project. *)
Definition is_project (o : object) : bool :=
  match o with
  | Project _ => true
  | _ => false
  end.

(** The reflection registered under [key] goes into the search index: a
    declaration with a url and a name that is not external. *)
Definition is_indexed (w : World) (key : Z) : bool :=
  match reflections (registry w) !! key with
  | Some l =>
      match heap w !! l with
      | Some (Declaration d) =>
          truthy_string (url (reflection (container d)))
          && negb (String.eqb (name (reflection (container d))) "")
          && negb (isExternal (flags (reflection (container d))))
      | _ => false
      end
  | None => false
  end.

(** The row describes the reflection registered under [key]: a
    declaration that is not external, with its kind, url and classes; the
    row names a parent when the reflection has one that is not the project,
    and its full name then starts with what [getFullName] returns for that
    parent. *)
Definition row_from (getFullName : loc → M string) (w : World) (key : Z)
    (row : JavascriptIndexPlugin.Row) : Prop :=
  ∃ l d,
    reflections (registry w) !! key = Some l
    ∧ heap w !! l = Some (Declaration d)
    ∧ isExternal (flags (reflection (container d))) = false
    ∧ JavascriptIndexPlugin.row_kind row = kind (reflection (container d))
    ∧ JavascriptIndexPlugin.row_url row = url (reflection (container d))
    ∧ JavascriptIndexPlugin.classes row
      = cssClasses (reflection (container d))
    ∧ match JavascriptIndexPlugin.row_parent row with
      | Some parentName =>
          ∃ p po,
            parent (reflection (container d)) = Some p
            ∧ heap w !! p = Some po
            ∧ is_project po = false
            ∧ (getFullName p w).1 = Returned parentName
            ∧ JavascriptIndexPlugin.fullName row
              = parentName +:+ "." +:+ name (reflection (container d))
      | None =>
          JavascriptIndexPlugin.fullName row
          = name (reflection (container d))
          ∧ (parent (reflection (container d)) = None
             ∨ ∃ p po, parent (reflection (container d)) = Some p
                       ∧ heap w !! p = Some po
                       ∧ is_project po = true)
      end.

(** The conditional writes of [DeclarationReflection.toObject], the last
    one first: each key with the value written under it, if any. *)
Definition declaration_puts (Type_toObject : Type_ → JValue)
    (this : DeclarationReflection) : list (string * option JValue) :=
  [("implementationOf", Type_toObject <$> implementationOf this);
   ("implementedBy", JArr ∘ map Type_toObject <$> implementedBy this);
   ("implementedTypes", JArr ∘ map Type_toObject <$> implementedTypes this);
   ("extendedBy", JArr ∘ map Type_toObject <$> extendedBy this);
   ("extendedTypes", JArr ∘ map Type_toObject <$> extendedTypes this);
   ("inheritedFrom", Type_toObject <$> inheritedFrom this);
   ("overwrites", Type_toObject <$> overwrites this);
   ("defaultValue",
    if truthy_string (defaultValue this)
    then JStr <$> defaultValue this else None);
   ("type", Type_toObject <$> type this)].

(** Carry out conditional writes, the last of the list first. *)
Definition put_all (puts : list (string * option JValue))
    (result : gmap string JValue) : gmap string JValue :=
  foldr (λ put, Serializer.put_when_set put.1 put.2) result puts.

(** The world is ready for the search index: every registered reflection
    is in the store, and the parent of a registered declaration is in the
    store too and, unless it is the project, has a full name. *)
Definition index_ready (getFullName : loc → M string) (w : World) : Prop :=
  ∀ key l,
    reflections (registry w) !! key = Some l →
    ∃ o, heap w !! l = Some o
         ∧ ∀ d p,
             o = Declaration d →
             parent (reflection (container d)) = Some p →
             ∃ po, heap w !! p = Some po
                   ∧ (is_project po = false →
                      ∃ parentName,
                        (getFullName p w).1 = Returned parentName).

(** ** More example graphs *)

Module MoreExamples.

Definition property_name (property : TraverseProperty.TraverseProperty)
  : string :=
  match property with
  | TraverseProperty.TypeParameter => "typeParameter"
  | TraverseProperty.TypeLiteral => "typeLiteral"
  | TraverseProperty.Signatures => "signatures"
  | TraverseProperty.IndexSignature => "indexSignature"
  | TraverseProperty.GetSignature => "getSignature"
  | TraverseProperty.SetSignature => "setSignature"
  end.

(** A callback that notes, in a file named after the reflection it is
    given, the property it was given it under. *)
Definition log_visit (child : loc)
    (property : TraverseProperty.TraverseProperty) : M unit :=
  let* r := read_reflection child in
  JavascriptIndexPlugin.writeFile (name r) (property_name property).

(** A [super.traverse] that finds no children (used where an example
    needs one). *)
Definition no_children (callback : TraverseCallback) (this : loc) : M unit :=
  ret tt.

(** A generic class [Box<T, U>] whose type is an object literal, with a
    call signature and an index signature. *)
Definition box : DeclarationReflection :=
  {| container :=
       {| reflection :=
            Examples.reflection_of 1 "Box" ReflectionKind.Class (Some 0%nat)
              (Some "classes/box.html");
          children := None |};
     type := Some (ReflectionType 4%nat);
     typeParameters := Some [2%nat; 3%nat];
     signatures := Some 5%nat;
     indexSignature := Some 7%nat; getSignature := None;
     setSignature := None; defaultValue := None;
     overwrites := None; inheritedFrom := None; implementationOf := None;
     extendedTypes := None; extendedBy := None;
     implementedTypes := None; implementedBy := None;
     typeHierarchy := None |}.

Definition box_heap : list object :=
  [Project {| reflection :=
                Examples.reflection_of 0 "docs" ReflectionKind.Global None
                  None;
              children := Some [1%nat] |};
   Declaration box;
   ParameterReflection
     (Examples.reflection_of 2 "T" ReflectionKind.TypeParameter (Some 1%nat)
        None);
   ParameterReflection
     (Examples.reflection_of 3 "U" ReflectionKind.TypeParameter (Some 1%nat)
        None);
   Declaration
     (Examples.declaration_of
        (Examples.reflection_of 4 "__type" ReflectionKind.TypeLiteral
           (Some 1%nat) None)
        None None None None None None None);
   Array [6%nat];
   Signature (Examples.signature_of
                (Examples.reflection_of 5 "__call"
                   ReflectionKind.CallSignature (Some 1%nat) None));
   Signature (Examples.signature_of
                (Examples.reflection_of 6 "__index"
                   ReflectionKind.IndexSignature (Some 1%nat) None))].

Definition box_world : World :=
  {| heap := box_heap;
     registry :=
       {| nextId := 7;
          reflections := {[0 := 0%nat; 1 := 1%nat; 2 := 2%nat; 3 := 3%nat;
                           4 := 4%nat; 5 := 6%nat; 6 := 7%nat]};
          symbols := {[300 := 1%nat]} |};
     scope := 0%nat;
     files := ∅ |}.

Definition Type_toString (t : Type_) : string :=
  match t with
  | IntrinsicType name => name
  | ReferenceType name _ _ => name
  | ReflectionType _ => "Object"
  | _ => "?"
  end.

(** A type converter that knows no type. *)
Definition convertNoType (node : option ts.TypeNode)
    (type : option ts.Type_) : M (option Type_) :=
  ret None.

Definition noTypeAtLocation (node : ts.SignatureDeclaration)
  : option ts.Type_ :=
  None.

End MoreExamples.
(** * Properties *)

(** ** Running store operations *)

Section store_lemmas.

Lemma bind_Returned {A B : Type} (m : M A) (k : A → M B) w a w' :
  m w = (Returned a, w') → bind m k w = k a w'.
Proof. intros Hm. unfold bind. by rewrite Hm. Qed.

Lemma read_Some l o w :
  heap w !! l = Some o → read l w = (Returned o, w).
Proof. intros Hl. unfold read. by rewrite Hl. Qed.

Lemma update_Some l o f w :
  heap w !! l = Some o →
  update l f w = (Returned tt, set_heap (<[l := f o]> (heap w)) w).
Proof. intros Hl. unfold update. by rewrite Hl. Qed.

Lemma field_Declaration {A : Type} (f : DeclarationReflection → A) l d w :
  heap w !! l = Some (Declaration d) →
  DeclarationReflection.field f l w = (Returned (f d), w).
Proof.
  intros Hl. unfold DeclarationReflection.field.
  by rewrite (bind_Returned _ _ _ _ _ (read_Some _ _ _ Hl)).
Qed.

Lemma items_of_Array a xs w :
  heap w !! a = Some (Array xs) →
  DeclarationReflection.items_of a w = (Returned xs, w).
Proof.
  intros Ha. unfold DeclarationReflection.items_of.
  by rewrite (bind_Returned _ _ _ _ _ (read_Some _ _ _ Ha)).
Qed.

Lemma Array_push_Array a x xs w :
  heap w !! a = Some (Array xs) →
  DeclarationReflection.Array_push a x w
  = (Returned tt, set_heap (<[a := Array (xs ++ [x])]> (heap w)) w).
Proof.
  intros Ha. unfold DeclarationReflection.Array_push.
  rewrite (bind_Returned _ _ _ _ _ (items_of_Array _ _ _ Ha)).
  by rewrite (update_Some _ _ _ _ Ha).
Qed.

End store_lemmas.

Lemma read_reflection_Some l o r w :
  heap w !! l = Some o → as_reflection o = Some r →
  read_reflection l w = (Returned r, w).
Proof.
  intros Hl Hr. unfold read_reflection.
  rewrite (bind_Returned _ _ _ _ _ (read_Some _ _ _ Hl)). by rewrite Hr.
Qed.

(** Constructing a reflection appends it to the store with the next id and
    indexes it. *)
Lemma new_reflection_run o w :
  new_reflection o w
  = (Returned (length (heap w)),
     {| heap := heap w ++ [object_set_id (nextId (registry w)) o];
        registry :=
          {| nextId := nextId (registry w) + 1;
             reflections := <[nextId (registry w) := length (heap w)]>
                              (reflections (registry w));
             symbols := symbols (registry w) |};
        scope := scope w; files := files w |}).
Proof.
  unfold new_reflection, alloc, IdentityRegistry.allocate, bind, gets, modify,
    update, ret; simpl.
  rewrite list_lookup_middle by done. simpl.
  rewrite insert_app_r_alt, Nat.sub_diag by lia. done.
Qed.

(** ** Identity Registry *)

Lemma as_reflection_set_id i o :
  id <$> as_reflection (object_set_id i o) = (λ _, i) <$> as_reflection o.
Proof. by destruct o. Qed.

Lemma id_at_lt w l i : id_at w l = Some i → (l < length (heap w))%nat.
Proof.
  unfold id_at. destruct (heap w !! l) eqn:Hl; [|done].
  intros _. by eapply lookup_lt_Some.
Qed.

Lemma registry_ok_initial base : registry_ok base (initial_world base).
Proof.
  split; simpl.
  - lia.
  - intros l i. unfold id_at; simpl. done.
  - intros i l. by rewrite lookup_empty.
  - intros i. lia.
Qed.

Lemma registry_ok_step base w w' :
  registry_ok base w → step w w' → registry_ok base w'.
Proof.
  intros [Hb Hi Hx Hd] Hstep.
  destruct Hstep as [o w [r Hr]|items w|l f w Hf|sym l w|s w|f w].
  - rewrite new_reflection_run. simpl.
    assert (Hnew : id_at
      {| heap := heap w ++ [object_set_id (nextId (registry w)) o];
         registry := registry w; scope := scope w; files := files w |}
      (length (heap w)) = Some (nextId (registry w))).
    { unfold id_at; simpl. rewrite list_lookup_middle by done. simpl.
      by rewrite as_reflection_set_id, Hr. }
    split; simpl.
    + lia.
    + intros l i Hl. pose proof (id_at_lt _ _ _ Hl) as Hlt. simpl in Hlt.
      rewrite length_app in Hlt. simpl in Hlt.
      destruct (decide (l = length (heap w))) as [->|Hne].
      * unfold id_at in Hl, Hnew; simpl in *. rewrite Hnew in Hl.
        injection Hl as <-. by rewrite lookup_insert_eq.
      * assert (Hold : id_at w l = Some i).
        { unfold id_at in *; simpl in *. by rewrite lookup_app_l in Hl by lia. }
        apply Hi in Hold as Hidx. destruct (Hx _ _ Hidx) as [? _].
        rewrite lookup_insert_ne by lia. done.
    + intros i l. rewrite lookup_insert. case_decide as Hi'.
      * intros [= <-]. subst i. split; [lia|exact Hnew].
      * intros Hl. destruct (Hx _ _ Hl) as [? Hid]. split; [lia|].
        pose proof (id_at_lt _ _ _ Hid).
        unfold id_at in *; simpl. by rewrite lookup_app_l.
    + intros i ?. rewrite lookup_insert. case_decide; [done|]. apply Hd. lia.
  - split; simpl;
      [done| |intros i l Hl; destruct (Hx _ _ Hl) as [? Hid]; split; [done|]
      |done].
    + intros l i Hl. apply Hi. pose proof (id_at_lt _ _ _ Hl) as Hlt.
      simpl in Hlt. rewrite length_app in Hlt. simpl in Hlt.
      unfold id_at in *; simpl in *.
      destruct (decide (l = length (heap w))) as [->|Hne].
      * by rewrite list_lookup_middle in Hl.
      * by rewrite lookup_app_l in Hl by lia.
    + pose proof (id_at_lt _ _ _ Hid).
      unfold id_at in *; simpl. by rewrite lookup_app_l.
  - assert (Hsame : ∀ l', id_at (update l f w).2 l' = id_at w l').
    { intros l'. unfold update. destruct (heap w !! l) as [o|] eqn:Hl; [|done].
      unfold id_at; simpl. destruct (decide (l' = l)) as [->|Hne].
      - rewrite list_lookup_insert_eq by (by eapply lookup_lt_Some).
        rewrite Hl; simpl. apply Hf.
      - by rewrite list_lookup_insert_ne. }
    assert (Hreg : registry (update l f w).2 = registry w).
    { unfold update. by destruct (heap w !! l). }
    split; rewrite ?Hreg; [done|..|done].
    + intros l' i. rewrite Hsame. apply Hi.
    + intros i l'. rewrite Hsame. apply Hx.
  - split; simpl; done.
  - split; simpl; done.
  - split; simpl; done.
Qed.

Lemma registry_ok_reachable base w :
  rtc step (initial_world base) w → registry_ok base w.
Proof.
  intros Hrtc.
  apply (rtc_ind_r (R := step) (registry_ok base) (initial_world base));
    [|..|done].
  - apply registry_ok_initial.
  - intros w1 w2 _ Hstep IH. by eapply registry_ok_step.
Qed.

Lemma step_nextId w w' : step w w' → nextId (registry w) ≤ nextId (registry w').
Proof.
  intros [o ? _|items ?|l f ? _|sym l ?|s ?|f ?]; simpl; try lia.
  - rewrite new_reflection_run; simpl. lia.
  - unfold update. destruct (heap _ !! l); simpl; lia.
Qed.

Lemma steps_nextId w w' :
  rtc step w w' → nextId (registry w) ≤ nextId (registry w').
Proof.
  induction 1 as [|w1 w2 w3 Hstep _ IH]; [lia|].
  apply step_nextId in Hstep. lia.
Qed.

Lemma allocate_run l w i w' :
  IdentityRegistry.allocate l w = (Returned i, w') →
  i = nextId (registry w) ∧ nextId (registry w') = i + 1.
Proof.
  unfold IdentityRegistry.allocate, gets, modify, update, bind, ret.
  destruct (heap w !! l); [|done]. simpl. by intros [= <- <-].
Qed.

(** C3.  In every world a run reaches from the empty one, two distinct
    reflections have distinct ids; the ids in use are exactly the integers
    from the base up to the next id (dense, starting at a fixed base); and
    of two allocation calls of a run the later returns the larger id, so no
    two calls return the same id. *)
Theorem reflection_ids_unique base w :
  rtc step (initial_world base) w →
  (∀ l1 l2 i1 i2,
     id_at w l1 = Some i1 → id_at w l2 = Some i2 → l1 ≠ l2 → i1 ≠ i2)
  ∧ (∀ i, base ≤ i < nextId (registry w) ↔ ∃ l, id_at w l = Some i)
  ∧ (∀ l1 i1 w1 w2 l2 i2 w3,
       IdentityRegistry.allocate l1 w = (Returned i1, w1) →
       rtc step w1 w2 →
       IdentityRegistry.allocate l2 w2 = (Returned i2, w3) →
       base ≤ i1 < i2).
Proof.
  intros Hreach. pose proof (registry_ok_reachable _ _ Hreach) as [Hb Hi Hx Hd].
  split_and!.
  - intros l1 l2 i1 i2 H1 H2 Hne <-.
    apply Hi in H1, H2. congruence.
  - intros i. split.
    + intros Hrange. destruct (Hd _ Hrange) as [l Hl].
      exists l. by apply Hx.
    + intros [l Hl]. apply Hi in Hl. by apply Hx in Hl as [? _].
  - intros l1 i1 w1 w2 l2 i2 w3 H1 Hsteps H2.
    apply allocate_run in H1 as [-> H1], H2 as [-> _].
    apply steps_nextId in Hsteps. lia.
Qed.

(** ** The accessor converter *)

Lemma createSignature_run node nm k w :
  createSignature node nm k w
  = (Returned (length (heap w)),
     {| heap := heap w
                ++ [Signature
                      {| sig_reflection :=
                           Reflection_set_id (nextId (registry w))
                             (new_Reflection nm k (Some (scope w)));
                         parameters := None; sig_type := None |}];
        registry :=
          {| nextId := nextId (registry w) + 1;
             reflections := <[nextId (registry w) := length (heap w)]>
                              (reflections (registry w));
             symbols := symbols (registry w) |};
        scope := scope w; files := files w |}).
Proof.
  unfold createSignature, gets. unfold bind at 1. by rewrite new_reflection_run.
Qed.

Lemma createDeclaration_known node k sym l w :
  ts.symbol node = Some sym →
  symbols (registry w) !! sym = Some l →
  createDeclaration node k w = (Returned (Some l), w).
Proof.
  intros Hsym Hl. unfold createDeclaration. rewrite Hsym.
  unfold IdentityRegistry.lookupSymbol, gets, bind, ret. by rewrite Hl.
Qed.

Lemma createDeclaration_new node k sym so w :
  ts.symbol node = Some sym →
  symbols (registry w) !! sym = None →
  heap w !! scope w = Some so →
  createDeclaration node k w
  = (Returned (Some (length (heap w))),
     {| heap := <[scope w := push_child (length (heap w)) so]> (heap w)
                ++ [Declaration
                      (Declaration_set_container
                         {| reflection :=
                              Reflection_set_id (nextId (registry w))
                                (new_Reflection (ts.name node) k (Some (scope w)));
                            children := None |}
                         (new_DeclarationReflection (ts.name node) k
                            (Some (scope w))))];
        registry :=
          {| nextId := nextId (registry w) + 1;
             reflections := <[nextId (registry w) := length (heap w)]>
                              (reflections (registry w));
             symbols := <[sym := length (heap w)]> (symbols (registry w)) |};
        scope := scope w; files := files w |}).
Proof.
  intros Hsym Hnew Hscope. unfold createDeclaration. rewrite Hsym.
  unfold IdentityRegistry.lookupSymbol. unfold gets at 1. unfold bind at 1.
  rewrite Hnew. unfold gets at 1. unfold bind at 1.
  rewrite (bind_Returned _ _ _ _ _ (new_reflection_run _ _)).
  unfold IdentityRegistry.registerSymbol, modify, bind, update, ret; simpl.
  assert (Hlt : (scope w < length (heap w))%nat) by (by eapply lookup_lt_Some).
  rewrite lookup_app_l, Hscope by done.
  by rewrite insert_app_l.
Qed.

Section convert_run.
Variable convertType : option ts.TypeNode → option ts.Type_ → M (option Type_).
Variable getTypeAtLocation : ts.SignatureDeclaration → option ts.Type_.

Lemma convert_accessor_run node w so sr l w1 d1 :
  heap w !! scope w = Some so →
  as_reflection so = Some sr →
  AccessorConverter.declarationKind (kind sr) (createComment node) ≠ ReflectionKind.Constant →
  createDeclaration node (AccessorConverter.declarationKind (kind sr) (createComment node)) w
  = (Returned (Some l), w1) →
  heap w1 !! l = Some (Declaration d1) →
  AccessorConverter.convert convertType getTypeAtLocation node w
  = (Returned (Some l),
     {| heap := <[l := Declaration (attach_signature node (length (heap w1)) d1)]>
                  (heap w1 ++ [Signature (accessor_signature node (nextId (registry w1)) l)]);
        registry :=
          {| nextId := nextId (registry w1) + 1;
             reflections := <[nextId (registry w1) := length (heap w1)]>
                              (reflections (registry w1));
             symbols := symbols (registry w1) |};
        scope := scope w1; files := files w1 |}).
Proof.
  intros Hscope Hsr Hkind Hcreate Hl.
  unfold AccessorConverter.convert. unfold gets at 1. unfold bind at 1.
  rewrite (bind_Returned _ _ _ _ _ (read_reflection_Some _ _ _ _ Hscope Hsr)).
  rewrite (bind_Returned _ _ _ _ _ Hcreate).
  apply Z.eqb_neq in Hkind. rewrite Hkind.
  assert (Hlt : (l < length (heap w1))%nat) by (by eapply lookup_lt_Some).
  unfold bind at 1. unfold Context.withScope.
  unfold attach_signature, accessor_signature.
  destruct (decide (ts.kind node = ts.GetAccessor)).
  - rewrite (bind_Returned _ _ _ _ _ (createSignature_run _ _ _ _)).
    unfold update; simpl. rewrite lookup_app_l, Hl by done. done.
  - rewrite (bind_Returned _ _ _ _ _ (createSignature_run _ _ _ _)).
    unfold update; simpl. rewrite lookup_app_l, Hl by done. done.
Qed.
End convert_run.

Lemma declarationKind_Constant k c :
  AccessorConverter.declarationKind k c = ReflectionKind.Constant
  ↔ Z.land k ReflectionKind.ClassOrInterface ≠ 0
    ∧ ∃ cm, c = Some cm ∧ hasTag cm "constant" = true.
Proof.
  unfold AccessorConverter.declarationKind.
  destruct (Z.eqb_spec (Z.land k ReflectionKind.ClassOrInterface) 0) as [->|Hk]; simpl.
  - split; [discriminate|]. by intros [? _].
  - destruct c as [cm|]; [destruct (hasTag cm "constant") eqn:Htag|].
    + split; [|done]. intros _. split; [done|]. by exists cm.
    + split; [discriminate|]. intros [_ (cm' & [= <-] & Htag')]. congruence.
    + split; [discriminate|]. by intros [_ (cm' & [=] & _)].
Qed.

Section convert_props.
Variable convertType : option ts.TypeNode → option ts.Type_ → M (option Type_).
Variable getTypeAtLocation : ts.SignatureDeclaration → option ts.Type_.

(** C1, amended.  When [convert] returns a Declaration for an accessor
    node that it does not convert as a constant, the Declaration holds a
    signature created for the node: a getter sets [getSignature] to a
    [__get] signature, a setter sets [setSignature] to a [__set]
    signature, and so at least one of the two is set. *)
Theorem convert_accessor_holds_signature w node l w' :
  symbols_name_declarations w →
  converted_as_constant w node = false →
  AccessorConverter.convert convertType getTypeAtLocation node w = (Returned (Some l), w') →
  ∃ d s sg,
    heap w' !! l = Some (Declaration d)
    ∧ heap w' !! s = Some (Signature sg)
    ∧ parent (sig_reflection sg) = Some l
    ∧ (ts.kind node = ts.GetAccessor →
       getSignature d = Some s
       ∧ name (sig_reflection sg) = "__get"
       ∧ kind (sig_reflection sg) = ReflectionKind.GetSignature)
    ∧ (ts.kind node = ts.SetAccessor →
       setSignature d = Some s
       ∧ name (sig_reflection sg) = "__set"
       ∧ kind (sig_reflection sg) = ReflectionKind.SetSignature)
    ∧ DeclarationReflection.hasGetterOrSetter d = true.
Proof.
  intros Hwf Hnc Hconv.
  unfold converted_as_constant in Hnc.
  destruct (heap w !! scope w) as [so|] eqn:Hscope; cycle 1.
  { unfold AccessorConverter.convert, gets, read_reflection, read, bind in Hconv.
    by rewrite Hscope in Hconv. }
  destruct (as_reflection so) as [sr|] eqn:Hsr; cycle 1.
  { unfold AccessorConverter.convert, gets, read_reflection, read, bind in Hconv.
    by rewrite Hscope, Hsr in Hconv. }
  apply Z.eqb_neq in Hnc.
  assert (∃ w1 d1,
    createDeclaration node (AccessorConverter.declarationKind (kind sr) (createComment node)) w
    = (Returned (Some l), w1) ∧ heap w1 !! l = Some (Declaration d1))
    as (w1 & d1 & Hcreate & Hl).
  { destruct (ts.symbol node) as [sym|] eqn:Hsym; cycle 1.
    { unfold AccessorConverter.convert in Hconv. unfold gets at 1 in Hconv.
      unfold bind at 1 in Hconv.
      rewrite (bind_Returned _ _ _ _ _ (read_reflection_Some _ _ _ _ Hscope Hsr)) in Hconv.
      unfold createDeclaration in Hconv. rewrite Hsym in Hconv.
      by unfold bind, ret, Context.withScope in Hconv. }
    destruct (symbols (registry w) !! sym) as [l0|] eqn:Hknown.
    - assert (∃ d0, heap w !! l0 = Some (Declaration d0)) as [d0 Hd0].
      { specialize (Hwf _ _ Hknown). unfold is_declaration in Hwf.
        destruct (heap w !! l0) as [[]|]; try done. eauto. }
      pose proof (createDeclaration_known node
        (AccessorConverter.declarationKind (kind sr) (createComment node)) _ _ _ Hsym Hknown) as Hc.
      rewrite (convert_accessor_run _ _ _ _ _ _ _ _ _ Hscope Hsr Hnc Hc Hd0) in Hconv.
      injection Hconv as <- _. eauto.
    - pose proof (createDeclaration_new node
        (AccessorConverter.declarationKind (kind sr) (createComment node)) _ _ _ Hsym Hknown Hscope) as Hc.
      match type of Hc with
      | _ = (_, ?w1) =>
          assert (∃ d0, heap w1 !! length (heap w) = Some (Declaration d0))
            as [d0 Hd0]
      end.
      { eexists. simpl. rewrite lookup_app_r by (by rewrite length_insert).
        by rewrite length_insert, Nat.sub_diag. }
      rewrite (convert_accessor_run _ _ _ _ _ _ _ _ _ Hscope Hsr Hnc Hc Hd0) in Hconv.
      injection Hconv as <- _. eauto. }
  rewrite (convert_accessor_run _ _ _ _ _ _ _ _ _ Hscope Hsr Hnc Hcreate Hl) in Hconv.
  injection Hconv as <-.
  assert (Hlt : (l < length (heap w1))%nat) by (by eapply lookup_lt_Some).
  eexists _, (length (heap w1)), _. simpl. split_and!.
  - apply list_lookup_insert_eq. rewrite length_app. lia.
  - rewrite list_lookup_insert_ne by lia. by apply list_lookup_middle.
  - unfold accessor_signature. by destruct (decide _).
  - intros Hk. unfold attach_signature, accessor_signature.
    by destruct (decide _).
  - intros Hk. unfold attach_signature, accessor_signature.
    destruct (decide _); [congruence|done].
  - unfold attach_signature, DeclarationReflection.hasGetterOrSetter.
    destruct (decide _); simpl; [done|]. apply orb_true_r.
Qed.

End convert_props.

(** *** The converter runs in steps *)

Lemma registry_ok_steps base w w' :
  registry_ok base w → rtc step w w' → registry_ok base w'.
Proof.
  intros Hok Hrtc. induction Hrtc as [|w1 w2 w3 Hstep _ IH]; [done|].
  apply IH. by eapply registry_ok_step.
Qed.

Lemma steps_ret {A : Type} (a : A) : steps (ret a).
Proof. intros w. apply rtc_refl. Qed.

Lemma steps_throw {A : Type} e : steps (@throw A e).
Proof. intros w. apply rtc_refl. Qed.

Lemma steps_stuck {A : Type} : steps (@stuck A).
Proof. intros w. apply rtc_refl. Qed.

Lemma steps_gets {A : Type} (f : World → A) : steps (gets f).
Proof. intros w. apply rtc_refl. Qed.

Lemma steps_bind {A B : Type} (m : M A) (k : A → M B) :
  steps m → (∀ a, steps (k a)) → steps (bind m k).
Proof.
  intros Hm Hk w. unfold bind. specialize (Hm w).
  destruct (m w) as [[a|e|] w1]; simpl in *; [|done..].
  etrans; [exact Hm|apply Hk].
Qed.

Lemma steps_read l : steps (read l).
Proof. intros w. unfold read. destruct (heap w !! l); apply rtc_refl. Qed.

Lemma steps_read_reflection l : steps (read_reflection l).
Proof.
  apply steps_bind; [apply steps_read|].
  intros o. destruct (as_reflection o); [apply steps_ret|apply steps_stuck].
Qed.

Lemma steps_update l f : keeps_id f → steps (update l f).
Proof. intros Hf w. by apply rtc_once, step_update. Qed.

Lemma steps_new_reflection o : is_Some (as_reflection o) → steps (new_reflection o).
Proof. intros Ho w. by apply rtc_once, step_construct. Qed.

Lemma steps_withScope reflection body :
  steps body → steps (Context.withScope reflection body).
Proof.
  intros Hbody w. destruct reflection as [l|]; simpl; [|apply rtc_refl].
  specialize (Hbody (set_scope l w)).
  destruct (body (set_scope l w)) as [r w1]; simpl in *.
  eapply rtc_l; [apply step_scope|].
  eapply rtc_r; [exact Hbody|apply step_scope].
Qed.

Lemma keeps_id_push_child l : keeps_id (push_child l).
Proof. by intros []. Qed.

Lemma keeps_id_on_declaration f :
  (∀ d, id (reflection (container (f d))) = id (reflection (container d))) →
  keeps_id (on_declaration f).
Proof. intros Hf [p|d|s|r|items]; simpl; try done. by rewrite Hf. Qed.

Lemma steps_createDeclaration node kind : steps (createDeclaration node kind).
Proof.
  unfold createDeclaration. destruct (ts.symbol node) as [symbolId|];
    [|apply steps_ret].
  apply steps_bind; [apply steps_gets|]. intros [l|]; [apply steps_ret|].
  apply steps_bind; [apply steps_gets|]. intros container.
  apply steps_bind; [apply steps_new_reflection; by eexists|]. intros l.
  apply steps_bind.
  { intros w. apply rtc_once, step_registerSymbol. }
  intros _. apply steps_bind; [|intros; apply steps_ret].
  apply steps_update, keeps_id_push_child.
Qed.

Lemma steps_createSignature node name kind :
  steps (createSignature node name kind).
Proof.
  apply steps_bind; [apply steps_gets|]. intros owner.
  apply steps_new_reflection. by eexists.
Qed.

(** Converting an accessor is a sequence of steps of the run, as long as
    converting its type is; so the registry stays in agreement with the
    store, and the reflections the converter creates have ids of their
    own. *)
Lemma steps_convert convertType getTypeAtLocation node :
  (∀ typeNode type, steps (convertType typeNode type)) →
  steps (AccessorConverter.convert convertType getTypeAtLocation node).
Proof.
  intros HconvertType. unfold AccessorConverter.convert.
  apply steps_bind; [apply steps_gets|]. intros scope.
  apply steps_bind; [apply steps_read_reflection|]. intros scopeReflection.
  apply steps_bind; [apply steps_createDeclaration|]. intros declaration.
  apply steps_bind; [|intros; apply steps_ret].
  apply steps_withScope. destruct declaration as [d|]; [|apply steps_throw].
  destruct (_ =? _).
  - apply steps_bind; [apply HconvertType|]. intros t.
    by apply steps_update, keeps_id_on_declaration.
  - destruct (decide _).
    + apply steps_bind; [apply steps_createSignature|]. intros s.
      by apply steps_update, keeps_id_on_declaration.
    + apply steps_bind; [apply steps_createSignature|]. intros s.
      by apply steps_update, keeps_id_on_declaration.
Qed.

Lemma convert_keeps_registry_ok convertType getTypeAtLocation node base w :
  (∀ typeNode type, steps (convertType typeNode type)) →
  registry_ok base w →
  registry_ok base
    (AccessorConverter.convert convertType getTypeAtLocation node w).2.
Proof.
  intros HconvertType Hok.
  eapply registry_ok_steps; [exact Hok|]. by apply steps_convert.
Qed.

(** [withScope] leaves the scope as it found it, however the body ends. *)
Lemma withScope_restores_scope reflection body w :
  scope (Context.withScope reflection body w).2 = scope w.
Proof.
  destruct reflection as [l|]; simpl; [|done].
  by destruct (body (set_scope l w)).
Qed.

(** *** The converter on the example class *)

Lemma reflection_ids_unique_witness :
  rtc step (initial_world 5) Examples.two_reflections
  ∧ id_at Examples.two_reflections 0%nat = Some 5
  ∧ id_at Examples.two_reflections 1%nat = Some 6
  ∧ (∀ l1 l2 i1 i2,
       id_at Examples.two_reflections l1 = Some i1 →
       id_at Examples.two_reflections l2 = Some i2 → l1 ≠ l2 → i1 ≠ i2).
Proof.
  assert (Hrun : rtc step (initial_world 5) Examples.two_reflections).
  { apply (rtc_l _ _ Examples.one_reflection).
    - apply step_construct. by eexists.
    - apply rtc_once, step_construct. by eexists. }
  split_and!; [exact Hrun|reflexivity|reflexivity|].
  exact (proj1 (reflection_ids_unique 5 Examples.two_reflections Hrun)).
Defined.

Lemma panel_world_symbols : symbols_name_declarations Examples.panel_world.
Proof.
  intros symbolId l Hl. simpl in Hl.
  apply lookup_singleton_Some in Hl as [_ <-]. reflexivity.
Qed.

Lemma convert_accessor_holds_signature_witness :
  symbols_name_declarations Examples.panel_world
  ∧ converted_as_constant Examples.panel_world Examples.getter = false
  ∧ AccessorConverter.convert Examples.convertType Examples.getTypeAtLocation
      Examples.getter Examples.panel_world
    = (Returned (Some 2%nat), Examples.after_getter)
  ∧ ∃ d s sg,
      heap Examples.after_getter !! 2%nat = Some (Declaration d)
      ∧ heap Examples.after_getter !! s = Some (Signature sg)
      ∧ parent (sig_reflection sg) = Some 2%nat
      ∧ (ts.kind Examples.getter = ts.GetAccessor →
         getSignature d = Some s
         ∧ name (sig_reflection sg) = "__get"
         ∧ kind (sig_reflection sg) = ReflectionKind.GetSignature)
      ∧ (ts.kind Examples.getter = ts.SetAccessor →
         setSignature d = Some s
         ∧ name (sig_reflection sg) = "__set"
         ∧ kind (sig_reflection sg) = ReflectionKind.SetSignature)
      ∧ DeclarationReflection.hasGetterOrSetter d = true.
Proof.
  assert (Hrun : AccessorConverter.convert Examples.convertType
                   Examples.getTypeAtLocation Examples.getter
                   Examples.panel_world
                 = (Returned (Some 2%nat), Examples.after_getter))
    by (vm_compute; reflexivity).
  split_and!; [exact panel_world_symbols|reflexivity|exact Hrun|].
  exact (convert_accessor_holds_signature Examples.convertType
           Examples.getTypeAtLocation Examples.panel_world Examples.getter
           2%nat Examples.after_getter panel_world_symbols eq_refl Hrun).
Defined.

(** C1, as stated, fails: in a class, a getter documented with the
    [constant] tag is converted to a Declaration of kind [Constant] whose
    type is set and which holds neither signature. *)
Lemma convert_constant_accessor_sets_no_signature :
  AccessorConverter.convert Examples.convertType Examples.getTypeAtLocation
    Examples.constant_getter Examples.panel_world
  = (Returned (Some 2%nat), Examples.after_constant_getter)
  ∧ ∃ d, heap Examples.after_constant_getter !! 2%nat = Some (Declaration d)
         ∧ kind (reflection (container d)) = ReflectionKind.Constant
         ∧ type d = Some (IntrinsicType "number")
         ∧ getSignature d = None
         ∧ setSignature d = None
         ∧ DeclarationReflection.hasGetterOrSetter d = false.
Proof.
  split; [vm_compute; reflexivity|].
  eexists. split; [vm_compute; reflexivity|]. done.
Qed.



(** ** [DeclarationReflection.getAllSignatures] *)

Lemma push_when_set (h pre : list object) acc (s : option loc) w :
  heap w = h ++ pre ++ [Array acc] →
  match s with
  | Some s => DeclarationReflection.Array_push (length (h ++ pre)) s
  | None => ret tt
  end w
  = (Returned tt, set_heap (h ++ pre ++ [Array (acc ++ option_list s)]) w).
Proof.
  intros Hw. destruct s as [s|]; simpl.
  - assert (Hlast : heap w !! length (h ++ pre) = Some (Array acc)).
    { rewrite Hw, app_assoc. by rewrite list_lookup_middle. }
    rewrite (Array_push_Array _ _ _ _ Hlast). do 2 f_equal.
    rewrite Hw, app_assoc, insert_app_r_alt, Nat.sub_diag by lia.
    by rewrite <- app_assoc.
  - unfold ret. rewrite app_nil_r, <- Hw. by destruct w.
Qed.

Lemma pushes_run (h pre : list object) acc this d result w :
  heap w = h ++ pre ++ [Array acc] →
  h !! this = Some (Declaration d) →
  result = length (h ++ pre) →
  (let* indexSignature := DeclarationReflection.field indexSignature this in
   match indexSignature with
   | Some s => DeclarationReflection.Array_push result s
   | None => ret tt
   end ;;;
   let* getSignature := DeclarationReflection.field getSignature this in
   match getSignature with
   | Some s => DeclarationReflection.Array_push result s
   | None => ret tt
   end ;;;
   let* setSignature := DeclarationReflection.field setSignature this in
   match setSignature with
   | Some s => DeclarationReflection.Array_push result s
   | None => ret tt
   end ;;;
   ret result) w
  = (Returned result,
     set_heap (h ++ pre ++ [Array (acc ++ option_list (indexSignature d)
                                   ++ option_list (getSignature d)
                                   ++ option_list (setSignature d))]) w).
Proof.
  intros Hw Hthis ->.
  assert (Hin : ∀ w', (∃ acc', heap w' = h ++ pre ++ [Array acc']) →
                      heap w' !! this = Some (Declaration d)).
  { intros w' [acc' ->]. rewrite lookup_app_l; [done|]. by eapply lookup_lt_Some. }
  rewrite (bind_Returned _ _ _ _ _ (field_Declaration indexSignature _ _ _ (Hin w (ex_intro _ _ Hw)))).
  rewrite (bind_Returned _ _ _ _ _ (push_when_set _ _ _ (indexSignature d) _ Hw)).
  set (w1 := set_heap _ w).
  assert (Hw1 : heap w1 = h ++ pre ++ [Array (acc ++ option_list (indexSignature d))]) by done.
  rewrite (bind_Returned _ _ _ _ _ (field_Declaration getSignature _ _ _ (Hin w1 (ex_intro _ _ Hw1)))).
  rewrite (bind_Returned _ _ _ _ _ (push_when_set _ _ _ (getSignature d) _ Hw1)).
  set (w2 := set_heap _ w1).
  assert (Hw2 : heap w2 = h ++ pre ++ [Array ((acc ++ option_list (indexSignature d)) ++ option_list (getSignature d))]) by done.
  rewrite (bind_Returned _ _ _ _ _ (field_Declaration setSignature _ _ _ (Hin w2 (ex_intro _ _ Hw2)))).
  rewrite (bind_Returned _ _ _ _ _ (push_when_set _ _ _ (setSignature d) _ Hw2)).
  unfold ret. subst w2 w1. unfold set_heap; simpl. by rewrite <- !app_assoc.
Qed.

(** C9.  [getAllSignatures] returns a new array holding the elements of
    [signatures] in their order, then [indexSignature], [getSignature] and
    [setSignature], each when it is set (so the empty list when none is);
    every object that existed before the call, the Declaration and its own
    [signatures] array among them, is as it was. *)
Theorem getAllSignatures_concatenation w this d sigs :
  heap w !! this = Some (Declaration d) →
  match signatures d with
  | Some a => heap w !! a = Some (Array sigs)
  | None => sigs = []
  end →
  ∃ result w',
    DeclarationReflection.getAllSignatures this w = (Returned result, w')
    ∧ heap w' !! result
      = Some (Array (sigs ++ option_list (indexSignature d)
                     ++ option_list (getSignature d)
                     ++ option_list (setSignature d)))
    ∧ (∃ fresh, heap w' = heap w ++ fresh)
    ∧ (length (heap w) ≤ result)%nat
    ∧ registry w' = registry w ∧ scope w' = scope w ∧ files w' = files w.
Proof.
  intros Hthis Hsigs.
  assert (Hlt : (this < length (heap w))%nat) by (eapply lookup_lt_Some; eauto).
  unfold DeclarationReflection.getAllSignatures. unfold alloc at 1. unfold bind at 1.
  set (w0 := set_heap (heap w ++ [Array []]) w).
  assert (Hthis0 : heap w0 !! this = Some (Declaration d)).
  { subst w0; simpl. by rewrite lookup_app_l. }
  rewrite (bind_Returned _ _ _ _ _ (field_Declaration signatures _ _ _ Hthis0)).
  destruct (signatures d) as [a|].
  - assert (Hconcat : DeclarationReflection.Array_concat (length (heap w)) a w0
            = (Returned (length (heap w ++ [Array []])),
               set_heap (heap w ++ [Array []] ++ [Array ([] ++ sigs)]) w)).
    { unfold DeclarationReflection.Array_concat.
      assert (H0 : heap w0 !! length (heap w) = Some (Array [])).
      { subst w0; simpl. by rewrite list_lookup_middle. }
      rewrite (bind_Returned _ _ _ _ _ (items_of_Array _ _ _ H0)).
      assert (Ha : heap w0 !! a = Some (Array sigs)).
      { subst w0; simpl. rewrite lookup_app_l; [done|]. by eapply lookup_lt_Some. }
      rewrite (bind_Returned _ _ _ _ _ (items_of_Array _ _ _ Ha)).
      unfold alloc. subst w0; simpl. unfold set_heap; simpl.
      by rewrite <- app_assoc. }
    rewrite (bind_Returned _ _ _ _ _ Hconcat).
    eexists _, _. split; [by eapply pushes_run|].
    simpl. rewrite !length_app. simpl.
    split_and!; try done; try lia; try (by eexists).
    rewrite lookup_app_r by lia.
    by replace (length (heap w) + 1 - length (heap w))%nat with 1%nat by lia.
  - subst sigs. unfold ret at 1. unfold bind at 1.
    eexists _, _. split.
    { eapply (pushes_run (heap w) [] []); [done|done|by rewrite app_nil_r]. }
    simpl.
    split_and!; try done; try lia; try (by eexists).
    by rewrite list_lookup_middle.
Qed.

(** ** [DeclarationReflection.findReflectionByName] *)

Section find_props.
Variable getChildByName : list object → loc → list string → option loc.
Variable base : list object → loc → list string → outcome (option loc).

#[local] Abbreviation find :=
  (DeclarationReflection.findReflectionByName_names getChildByName base).

Lemma find_unfold fuel h this names searchUp :
  find (S fuel) h this names searchUp
  = match h !! this with
    | Some (Declaration d) =>
        match getChildByName h this names with
        | Some reflection => Some (Returned (Some reflection))
        | None =>
            if searchUp && truthy (extendedTypes d) then
              match
                match extendedTypes d with
                | Some parents =>
                    match parents !! 0%nat with
                    | None => Some (Thrown TypeError)
                    | Some firstParent =>
                        match Type_reflection firstParent with
                        | Some parentReflection =>
                            DeclarationReflection.call getChildByName base fuel h parentReflection
                              names searchUp
                        | None => Some (Returned None)
                        end
                    end
                | None => Some (Returned None)
                end
              with
              | Some (Returned None) =>
                  DeclarationReflection.searchParent getChildByName base fuel h d names
              | inheritedReflection => inheritedReflection
              end
            else DeclarationReflection.searchParent getChildByName base fuel h d names
        end
    | _ => Some Stuck
    end.
Proof. reflexivity. Qed.

Hypothesis getChildByName_ignores_extendedTypes :
  ∀ f h l names,
    getChildByName (map_extendedTypes f <$> h) l names
    = getChildByName h l names.
Hypothesis base_ignores_extendedTypes :
  ∀ f h l names,
    base (map_extendedTypes f <$> h) l names = base h l names.

Lemma find_map_extendedTypes f fuel h this names searchUp :
  (searchUp = true →
   ∀ e, truthy (f e) = truthy e
        ∧ (f e ≫= (λ ps, ps !! 0%nat)) = (e ≫= (λ ps, ps !! 0%nat))) →
  find fuel (map_extendedTypes f <$> h) this names searchUp
  = find fuel h this names searchUp.
Proof.
  revert this searchUp.
  induction fuel as [|fuel IH]; intros this searchUp Hf; [done|].
  assert (Hcall : ∀ r su,
    (su = true → searchUp = true) →
    DeclarationReflection.call getChildByName base fuel (map_extendedTypes f <$> h) r names su
    = DeclarationReflection.call getChildByName base fuel h r names su).
  { intros r su Hsu. unfold DeclarationReflection.call. rewrite list_lookup_fmap.
    destruct (h !! r) as [[]|]; simpl; try done;
      try (by rewrite base_ignores_extendedTypes).
    apply IH. intros ->. by apply Hf, Hsu. }
  rewrite !find_unfold, list_lookup_fmap.
  destruct (h !! this) as [[p|d|s|r|items]|]; simpl; try done.
  rewrite getChildByName_ignores_extendedTypes.
  destruct (getChildByName h this names); [done|].
  assert (Hparent :
    DeclarationReflection.searchParent getChildByName base fuel (map_extendedTypes f <$> h)
      (Declaration_set_extendedTypes (f (extendedTypes d)) d) names
    = DeclarationReflection.searchParent getChildByName base fuel h d names).
  { unfold DeclarationReflection.searchParent; simpl. destruct (parent _); [|done]. by apply Hcall. }
  rewrite Hparent.
  destruct searchUp; simpl; [|done].
  destruct (Hf eq_refl (extendedTypes d)) as [Htruthy Hhead].
  rewrite Htruthy.
  destruct (extendedTypes d) as [ps|], (f _) as [ps'|]; simpl in *;
    try done.
  rewrite Hhead.
  destruct (ps !! 0%nat) as [first|]; [|done].
  destruct (Type_reflection first) as [p|]; [|done].
  by rewrite Hcall.
Qed.


Lemma findReflectionByName_empty_extendedTypes fuel h this d names :
  h !! this = Some (Declaration d) →
  getChildByName h this names = None →
  extendedTypes d = Some [] →
  find (S fuel) h this names true = Some (Thrown TypeError).
Proof. intros Hthis Hchild Hext. by rewrite find_unfold, Hthis, Hchild, Hext. Qed.

Lemma findReflectionByName_no_throw fuel h this names searchUp e :
  (∀ l names e, base h l names ≠ Thrown e) →
  (∀ l d, h !! l = Some (Declaration d) → extendedTypes d ≠ Some []) →
  find fuel h this names searchUp ≠ Some (Thrown e).
Proof.
  intros Hbase Hnonempty. revert this searchUp.
  induction fuel as [|fuel IH]; intros this searchUp; [done|].
  assert (Hcall : ∀ r su,
    DeclarationReflection.call getChildByName base fuel h r names su ≠ Some (Thrown e)).
  { intros r su. unfold DeclarationReflection.call.
    destruct (h !! r) as [[]|]; try done; intros [= ?]; by eapply Hbase. }
  assert (Hparent : ∀ d,
    DeclarationReflection.searchParent getChildByName base fuel h d names ≠ Some (Thrown e)).
  { intros d. unfold DeclarationReflection.searchParent. destruct (parent _); [apply Hcall|done]. }
  rewrite find_unfold.
  destruct (h !! this) as [[p|d|s|r|items]|] eqn:Hthis; try done.
  destruct (getChildByName h this names); [done|].
  destruct (searchUp && truthy (extendedTypes d)) eqn:Hup; [|apply Hparent].
  pose proof (Hnonempty _ _ Hthis) as Hne.
  destruct (extendedTypes d) as [[|first rest]|]; [done| |by rewrite andb_false_r in *].
  simpl. destruct (Type_reflection first) as [p|]; [|apply Hparent].
  pose proof (Hcall p searchUp) as Hp.
  destruct (DeclarationReflection.call _ _ _ _ _ _ _) as [[[?|]| |]|]; done.
Qed.
End find_props.

Lemma getChildByName_map_extendedTypes f h this names :
  getChildByName (map_extendedTypes f <$> h) this names
  = getChildByName h this names.
Proof.
  revert this. induction names as [|first rest IH]; intros this; [done|].
  simpl. rewrite list_lookup_fmap.
  assert (Hnamed : ∀ c : loc,
    match (map_extendedTypes f <$> h) !! c with
    | Some o => match as_reflection o with
                | Some r => String.eqb (name r) first
                | None => false
                end
    | None => false
    end
    = match h !! c with
      | Some o => match as_reflection o with
                  | Some r => String.eqb (name r) first
                  | None => false
                  end
      | None => false
      end).
  { intros c. rewrite list_lookup_fmap. by destruct (h !! c) as [[]|]. }
  set (cs1 := match map_extendedTypes f <$> h !! this with
              | Some (Project p) => default [] (children p)
              | Some (Declaration d) => default [] (children (container d))
              | _ => []
              end).
  set (cs2 := match h !! this with
              | Some (Project p) => default [] (children p)
              | Some (Declaration d) => default [] (children (container d))
              | _ => []
              end).
  assert (cs1 = cs2) as ->.
  { subst cs1 cs2. by destruct (h !! this) as [[]|]. }
  clearbody cs2.
  assert (Hfind : ∀ cs : list loc,
    List.find (λ c : loc,
      match (map_extendedTypes f <$> h) !! c with
      | Some o => match as_reflection o with
                  | Some r => String.eqb (name r) first
                  | None => false
                  end
      | None => false
      end) cs
    = List.find (λ c : loc,
      match h !! c with
      | Some o => match as_reflection o with
                  | Some r => String.eqb (name r) first
                  | None => false
                  end
      | None => false
      end) cs).
  { induction cs as [|c cs IHcs]; [done|]. simpl. by rewrite Hnamed, IHcs. }
  rewrite Hfind. destruct (List.find _ cs2) as [c|]; [|done].
  destruct rest; [done|]. apply IH.
Qed.


Lemma Reflection_findReflectionByName_map_extendedTypes f h l names :
  Reflection_findReflectionByName (map_extendedTypes f <$> h) l names
  = Reflection_findReflectionByName h l names.
Proof.
  unfold Reflection_findReflectionByName.
  by rewrite getChildByName_map_extendedTypes.
Qed.

(** *** The methods on the example graphs *)

Lemma getAllSignatures_concatenation_witness :
  ∃ d,
    heap Examples.zoo_world !! 6%nat = Some (Declaration d)
    ∧ heap Examples.zoo_world !! 7%nat = Some (Array [8%nat; 9%nat])
    ∧ ∃ result w',
        DeclarationReflection.getAllSignatures 6%nat Examples.zoo_world
        = (Returned result, w')
        ∧ heap w' !! result
          = Some (Array ([8%nat; 9%nat] ++ option_list (indexSignature d)
                         ++ option_list (getSignature d)
                         ++ option_list (setSignature d)))
        ∧ (∃ fresh, heap w' = heap Examples.zoo_world ++ fresh)
        ∧ (length (heap Examples.zoo_world) ≤ result)%nat
        ∧ registry w' = registry Examples.zoo_world
        ∧ scope w' = scope Examples.zoo_world
        ∧ files w' = files Examples.zoo_world.
Proof.
  eexists. split; [reflexivity|]. split; [reflexivity|].
  exact (getAllSignatures_concatenation Examples.zoo_world 6%nat _
           [8%nat; 9%nat] eq_refl eq_refl).
Defined.

(** The accessor of the example has no [signatures]: the result is its get
    and set signatures. *)
Example getAllSignatures_accessor :
  ∃ w', DeclarationReflection.getAllSignatures 2%nat Examples.zoo_world
        = (Returned 10%nat, w')
        ∧ heap w' !! 10%nat = Some (Array [3%nat; 4%nat]).
Proof. eexists. split; reflexivity. Qed.


Example split_dotted_name :
  split "."%char "Animal.name" = ["Animal"; "name"]
  ∧ split "."%char "name" = ["name"]
  ∧ split "."%char "" = [""].
Proof. split_and!; reflexivity. Qed.

(** [Dog] has no member [name]: with [searchUp] it is found in [Animal],
    the first extended type; without, the search ends in the project. *)
Example findReflectionByName_inherited :
  DeclarationReflection.findReflectionByName getChildByName
    Reflection_findReflectionByName 2 Examples.zoo 5%nat (inl "name") true
  = Some (Returned (Some 2%nat))
  ∧ DeclarationReflection.findReflectionByName getChildByName
      Reflection_findReflectionByName 2 Examples.zoo 5%nat (inl "name") false
    = Some (Returned None)
  ∧ DeclarationReflection.findReflectionByName getChildByName
      Reflection_findReflectionByName 2 Examples.zoo 5%nat
      (inl "Animal.name") false
    = Some (Returned (Some 2%nat)).
Proof. split_and!; reflexivity. Qed.

(** C7, at the failing input: a class whose [extendedTypes] is the empty
    array and which has no child of the name.  With [searchUp] the method
    reads [reflection] of [parents[0]], which is [undefined], and throws a
    [TypeError], whatever the depth allowed to the search. *)
Theorem findReflectionByName_faults_on_empty_extendedTypes :
  ∀ fuel,
    DeclarationReflection.findReflectionByName getChildByName
      Reflection_findReflectionByName (S fuel) Examples.widget 1%nat
      (inl "render") true
    = Some (Thrown TypeError).
Proof.
  intros fuel. unfold DeclarationReflection.findReflectionByName.
  by eapply findReflectionByName_empty_extendedTypes.
Qed.

(** ** [DeclarationReflection.toObject] *)

Lemma lookup_put_when_set_eq key value (result : gmap string JValue) :
  Serializer.put_when_set key value result !! key
  = match value with Some v => Some v | None => result !! key end.
Proof. destruct value; simpl; [apply lookup_insert_eq|done]. Qed.

Lemma lookup_put_when_set_ne key key' value (result : gmap string JValue) :
  key ≠ key' → Serializer.put_when_set key value result !! key' = result !! key'.
Proof. intros. destruct value; simpl; [by apply lookup_insert_ne|done]. Qed.

(** Membership of a given key in a given list of keys. *)
Ltac key_in := repeat first [apply list_elem_of_here | apply list_elem_of_further].
Ltac key_not_in := apply (bool_decide_unpack _); vm_compute; exact I.

Section toObject_props.
Variable Type_toObject : Type_ → JValue.

(** The method as a sequence of conditional writes, last write first. *)
Lemma toObject_puts super this :
  DeclarationReflection.toObject Type_toObject super this
  = Serializer.put_when_set "implementationOf"
      (Type_toObject <$> implementationOf this)
      (Serializer.put_when_set "implementedBy"
         (JArr ∘ map Type_toObject <$> implementedBy this)
      (Serializer.put_when_set "implementedTypes"
         (JArr ∘ map Type_toObject <$> implementedTypes this)
      (Serializer.put_when_set "extendedBy"
         (JArr ∘ map Type_toObject <$> extendedBy this)
      (Serializer.put_when_set "extendedTypes"
         (JArr ∘ map Type_toObject <$> extendedTypes this)
      (Serializer.put_when_set "inheritedFrom"
         (Type_toObject <$> inheritedFrom this)
      (Serializer.put_when_set "overwrites"
         (Type_toObject <$> overwrites this)
      (Serializer.put_when_set "defaultValue"
         (if truthy_string (defaultValue this)
          then JStr <$> defaultValue this else None)
      (Serializer.put_when_set "type" (Type_toObject <$> type this)
         super)))))))).
Proof.
  unfold DeclarationReflection.toObject.
  destruct (type this), (overwrites this), (inheritedFrom this),
    (extendedTypes this), (extendedBy this), (implementedTypes this),
    (implementedBy this), (implementationOf this);
    (destruct (defaultValue this) as [s|];
     [destruct (truthy_string (Some s))|]; reflexivity).
Qed.

Lemma toObject_lookup_other super this key :
  key ∉ declaration_keys →
  DeclarationReflection.toObject Type_toObject super this !! key
  = super !! key.
Proof.
  intros Hkey. rewrite toObject_puts.
  rewrite !lookup_put_when_set_ne; [done|..];
    intros <-; apply Hkey; unfold declaration_keys; key_in.
Qed.

(** C5, amended.  Whatever [super.toObject()] returned, as long as it
    holds none of the nine keys: the object [toObject] returns has the key
    of a type field or of a list field exactly when that field is set,
    with its serialised value, and [defaultValue] exactly when the field
    is set to a non-empty string; a key whose field does not qualify is
    absent, and every other key is as [super.toObject()] left it. *)
Theorem toObject_keys super this :
  Forall (λ key, super !! key = None) declaration_keys →
  DeclarationReflection.toObject Type_toObject super this !! "type"
  = Type_toObject <$> type this
  ∧ DeclarationReflection.toObject Type_toObject super this !! "defaultValue"
    = (if truthy_string (defaultValue this)
       then JStr <$> defaultValue this else None)
  ∧ DeclarationReflection.toObject Type_toObject super this !! "overwrites"
    = Type_toObject <$> overwrites this
  ∧ DeclarationReflection.toObject Type_toObject super this !! "inheritedFrom"
    = Type_toObject <$> inheritedFrom this
  ∧ DeclarationReflection.toObject Type_toObject super this
      !! "implementationOf"
    = Type_toObject <$> implementationOf this
  ∧ DeclarationReflection.toObject Type_toObject super this !! "extendedTypes"
    = JArr ∘ map Type_toObject <$> extendedTypes this
  ∧ DeclarationReflection.toObject Type_toObject super this !! "extendedBy"
    = JArr ∘ map Type_toObject <$> extendedBy this
  ∧ DeclarationReflection.toObject Type_toObject super this
      !! "implementedTypes"
    = JArr ∘ map Type_toObject <$> implementedTypes this
  ∧ DeclarationReflection.toObject Type_toObject super this !! "implementedBy"
    = JArr ∘ map Type_toObject <$> implementedBy this
  ∧ (∀ key, key ∉ declaration_keys →
            DeclarationReflection.toObject Type_toObject super this !! key
            = super !! key).
Proof.
  intros Hsuper. rewrite Forall_forall in Hsuper. rewrite toObject_puts.
  assert (Hout : ∀ key (o : option JValue),
             key ∈ declaration_keys →
             match o with Some v => Some v | None => super !! key end = o).
  { intros key o Hkey. destruct o; [done|]. by apply Hsuper. }
  split_and!.
  1-9: rewrite ?lookup_put_when_set_ne by done;
       rewrite lookup_put_when_set_eq;
       rewrite ?lookup_put_when_set_ne by done;
       apply Hout; unfold declaration_keys; key_in.
  intros key Hkey.
  rewrite !lookup_put_when_set_ne; [done|..];
    intros <-; apply Hkey; unfold declaration_keys; key_in.
Qed.

Lemma Reflection_toObject_name r :
  Serializer.Reflection_toObject r !! "name" = Some (JStr (name r)).
Proof.
  unfold Serializer.Reflection_toObject.
  rewrite lookup_put_when_set_ne by done.
  by rewrite !lookup_insert_ne, lookup_insert_eq by done.
Qed.

Lemma Reflection_toObject_kind r :
  Serializer.Reflection_toObject r !! "kind" = Some (JNum (kind r)).
Proof.
  unfold Serializer.Reflection_toObject.
  rewrite lookup_put_when_set_ne by done.
  by rewrite !lookup_insert_ne, lookup_insert_eq by done.
Qed.

Lemma Reflection_toObject_other r key :
  key ∉ ["id"; "name"; "kind"; "flags"; "comment"] →
  Serializer.Reflection_toObject r !! key = None.
Proof.
  intros Hkey. unfold Serializer.Reflection_toObject.
  rewrite lookup_put_when_set_ne by (intros <-; apply Hkey; key_in).
  rewrite !lookup_insert_ne by (intros <-; apply Hkey; key_in).
  apply lookup_empty.
Qed.

(** What every reflection serialises holds none of the nine keys. *)
Lemma Reflection_toObject_declaration_keys r :
  Forall (λ key, Serializer.Reflection_toObject r !! key = None)
    declaration_keys.
Proof.
  unfold declaration_keys.
  repeat (apply Forall_cons; split;
          [apply Reflection_toObject_other; key_not_in|]).
  apply Forall_nil_2.
Qed.
End toObject_props.

(** ** Serialisation of the graph *)

Import Serializer.

Lemma graph_ok_lookup rank h l o :
  graph_ok rank h = true → h !! l = Some o → object_ok rank h l o = true.
Proof.
  unfold graph_ok. intros Hok Hl.
  apply Is_true_true, forallb_True in Hok.
  rewrite Forall_forall in Hok.
  apply Is_true_true, (Hok (l, o)).
  apply elem_of_lookup_imap. eauto.
Qed.

Section serializer_props.
Variable Type_toObject : Type_ → JValue.

Lemma owned_Some serialise key ls result :
  (∀ cs, ls = Some cs → Forall (λ c, is_Some (serialise c)) cs) →
  ∃ result',
    owned serialise key ls result = Some result'
    ∧ (∀ key', key ≠ key' → result' !! key' = result !! key')
    ∧ match ls with
      | Some cs => ∃ objs, result' !! key = Some (JArr objs)
                           ∧ length objs = length cs
      | None => result' !! key = result !! key
      end.
Proof.
  intros Hls. destruct ls as [cs|]; simpl; [|by eauto].
  destruct (mapM serialise cs) as [objs|] eqn:HmapM; simpl.
  - eexists. split; [done|]. split.
    + intros key' Hne. by rewrite lookup_insert_ne.
    + exists objs. rewrite lookup_insert_eq.
      split; [done|]. by apply length_mapM in HmapM.
  - exfalso. apply mapM_None in HmapM. rewrite Exists_exists in HmapM.
    destruct HmapM as (c & Hc & Hnone).
    specialize (Hls _ eq_refl). rewrite Forall_forall in Hls.
    destruct (Hls _ Hc) as [? ?]. congruence.
Qed.

(** C6.  In a finished graph every reflection serialises, given fuel
    beyond its rank, and the shape read back from the serialised object
    (name, kind, number of signatures) is the shape of the reflection in
    the graph. *)
Theorem serialization_round_trip rank h fuel l :
  graph_ok rank h = true →
  is_reflection h l = true →
  (rank l < fuel)%nat →
  ∃ obj shape,
    toObject Type_toObject fuel h l = Some obj
    ∧ shape_of_reflection h l = Some shape
    ∧ shape_of_object obj = Some shape.
Proof.
  intros Hok. revert l. induction fuel as [|fuel IH]; intros l Hl Hrank; [lia|].
  unfold is_reflection in Hl.
  destruct (h !! l) as [o|] eqn:Hlo; [|done].
  pose proof (graph_ok_lookup _ _ _ _ Hok Hlo) as Hobj.
  unfold object_ok in Hobj. apply andb_true_iff in Hobj as [Hsigs Howned].
  apply Is_true_true, forallb_True in Howned.
  assert (Hsub : ∀ ls cs, ls = Some cs → cs ⊆ owned_by h o →
    Forall (λ c, is_Some (toObject Type_toObject fuel h c)) cs).
  { intros ls cs _ Hcs. rewrite Forall_forall in Howned |- *.
    intros c Hc. apply Hcs, Howned in Hc.
    apply Is_true_true, andb_true_iff in Hc as [Hc Hlt].
    apply bool_decide_eq_true in Hlt.
    destruct (IH c Hc) as (obj & ? & -> & _); [lia|done]. }
  unfold shape_of_reflection. simpl. rewrite Hlo.
  destruct o as [p|d|s|r|items]; simpl in *; [| | | |done].
  - destruct (owned_Some (toObject Type_toObject fuel h) "children"
                (children p) (Reflection_toObject (reflection p)))
      as (result & -> & Hother & _).
    { intros cs Hcs. eapply Hsub; [done|]. by rewrite Hcs. }
    eexists _, _. split; [done|]. split; [done|]. simpl.
    rewrite !Hother by done.
    rewrite Reflection_toObject_name, Reflection_toObject_kind.
    by rewrite Reflection_toObject_other by key_not_in.
  - destruct (signatures_of h d) as [sigs|] eqn:Hsigsof; [|done]. simpl.
    destruct (owned_Some (toObject Type_toObject fuel h) "children"
                (children (container d))
                (Reflection_toObject (reflection (container d))))
      as (result1 & -> & Hother1 & _).
    { intros cs Hcs. eapply Hsub; [done|]. rewrite Hcs. intros c Hc; simpl; rewrite !elem_of_app; auto. }
    simpl.
    destruct (owned_Some (toObject Type_toObject fuel h) "signatures"
                sigs result1) as (result2 & -> & Hother2 & Hsig2).
    { intros cs Hcs. eapply Hsub; [done|]. rewrite Hcs. intros c Hc; simpl; rewrite !elem_of_app; auto. }
    simpl.
    destruct (owned_Some (toObject Type_toObject fuel h) "typeParameters"
                (typeParameters d) result2) as (result3 & -> & Hother3 & _).
    { intros cs Hcs. eapply Hsub; [done|]. rewrite Hcs. intros c Hc; simpl; rewrite !elem_of_app; auto. }
    simpl. eexists _, _. split; [done|]. split; [done|]. simpl.
    rewrite !toObject_lookup_other by key_not_in.
    rewrite !Hother3, !Hother2, !Hother1 by done.
    rewrite Reflection_toObject_name, Reflection_toObject_kind.
    destruct sigs as [items|]; simpl.
    + destruct Hsig2 as (objs & -> & ->). done.
    + rewrite Hsig2, Hother1 by done.
      by rewrite Reflection_toObject_other by key_not_in.
  - destruct (owned_Some (toObject Type_toObject fuel h) "parameters"
                (parameters s) (Reflection_toObject (sig_reflection s)))
      as (result & -> & Hother & _).
    { intros cs Hcs. eapply Hsub; [done|]. by rewrite Hcs. }
    eexists _, _. split; [done|]. split; [done|]. simpl.
    rewrite !lookup_put_when_set_ne by done.
    rewrite !Hother by done.
    rewrite Reflection_toObject_name, Reflection_toObject_kind.
    by rewrite Reflection_toObject_other by key_not_in.
  - eexists _, _. split; [done|]. split; [done|]. simpl.
    rewrite Reflection_toObject_name, Reflection_toObject_kind.
    by rewrite Reflection_toObject_other by key_not_in.
Qed.
End serializer_props.

Lemma serialization_round_trip_witness :
  graph_ok Examples.zoo_rank Examples.zoo = true
  ∧ is_reflection Examples.zoo 6%nat = true
  ∧ (Examples.zoo_rank 6 < 10)%nat
  ∧ ∃ obj shape,
      toObject Examples.Type_toObject 10 Examples.zoo 6%nat = Some obj
      ∧ shape_of_reflection Examples.zoo 6%nat = Some shape
      ∧ shape_of_object obj = Some shape.
Proof.
  assert (Hrank : (Examples.zoo_rank 6 < 10)%nat)
    by (unfold Examples.zoo_rank; simpl; lia).
  split_and!; [reflexivity|reflexivity|exact Hrank|].
  exact (serialization_round_trip Examples.Type_toObject Examples.zoo_rank
           Examples.zoo 10 6%nat eq_refl eq_refl Hrank).
Defined.

(** The method of the example serialises with its two signatures. *)
Example shape_of_bark :
  (toObject Examples.Type_toObject 10 Examples.zoo 6%nat ≫= shape_of_object)
  = Some {| shape_name := "bark"; shape_kind := ReflectionKind.Method;
            shape_signatures := 2 |}.
Proof. vm_compute. reflexivity. Qed.

Lemma toObject_keys_witness :
  Forall (λ key,
            Reflection_toObject (reflection (container Examples.dog)) !! key
            = None)
    declaration_keys
  ∧ DeclarationReflection.toObject Examples.Type_toObject
      (Reflection_toObject (reflection (container Examples.dog)))
      Examples.dog !! "extendedTypes"
    = JArr ∘ map Examples.Type_toObject <$> extendedTypes Examples.dog
  ∧ DeclarationReflection.toObject Examples.Type_toObject
      (Reflection_toObject (reflection (container Examples.dog)))
      Examples.dog !! "defaultValue"
    = None.
Proof.
  split; [apply Reflection_toObject_declaration_keys|].
  destruct (toObject_keys Examples.Type_toObject
              (Reflection_toObject (reflection (container Examples.dog)))
              Examples.dog (Reflection_toObject_declaration_keys _))
    as (_ & Hdefault & _ & _ & _ & Hextended & _).
  split; [exact Hextended|exact Hdefault].
Defined.

(** C5, as stated, fails: a Declaration whose [defaultValue] is set to the
    empty string serialises without the key. *)
Lemma toObject_drops_empty_defaultValue :
  defaultValue Examples.label = Some ""
  ∧ DeclarationReflection.toObject Examples.Type_toObject
      (Reflection_toObject (reflection (container Examples.label)))
      Examples.label !! "defaultValue"
    = None.
Proof. split; [reflexivity|]. vm_compute. reflexivity. Qed.

(** ** The search index plugin *)

Lemma keeps_heap_ret {A : Type} (a : A) : keeps_heap (ret a).
Proof. done. Qed.

Lemma keeps_heap_stuck {A : Type} : keeps_heap (@stuck A).
Proof. done. Qed.

Lemma keeps_heap_gets {A : Type} (f : World → A) : keeps_heap (gets f).
Proof. done. Qed.

Lemma keeps_heap_read l : keeps_heap (read l).
Proof. intros w. unfold read. by destruct (heap w !! l). Qed.

Lemma keeps_heap_bind {A B : Type} (m : M A) (k : A → M B) :
  keeps_heap m → (∀ a, keeps_heap (k a)) → keeps_heap (bind m k).
Proof.
  intros Hm Hk w. unfold bind. specialize (Hm w).
  destruct (m w) as [[a|e|] w1]; simpl in *; [|done..].
  by rewrite Hk.
Qed.

Lemma keeps_heap_writeFile fileName data : keeps_heap (JavascriptIndexPlugin.writeFile fileName data).
Proof. done. Qed.

Create HintDb keeps_heap.
#[local] Hint Resolve keeps_heap_ret keeps_heap_stuck keeps_heap_gets
  keeps_heap_read keeps_heap_writeFile : keeps_heap.

Section plugin_props.
Variable getFullName : loc → M string.
Variable JSON_stringify : list JavascriptIndexPlugin.Row → string.
Variable Path_join : list string → string.
Hypothesis getFullName_keeps_heap : ∀ l, keeps_heap (getFullName l).

Lemma keeps_heap_visit key rows : keeps_heap (JavascriptIndexPlugin.visit getFullName key rows).
Proof.
  unfold JavascriptIndexPlugin.visit. apply keeps_heap_bind; [auto with keeps_heap|]. intros index.
  destruct (index !! key) as [l|]; [|auto with keeps_heap].
  apply keeps_heap_bind; [auto with keeps_heap|]. intros [p|d|s|r|items];
    try apply keeps_heap_ret.
  destruct (_ || _); [apply keeps_heap_ret|].
  apply keeps_heap_bind.
  { destruct (parent _) as [p|]; [|apply keeps_heap_ret].
    apply keeps_heap_bind; [auto with keeps_heap|].
    intros []; apply keeps_heap_ret. }
  intros [p|].
  - apply keeps_heap_bind.
    + apply keeps_heap_bind; [apply getFullName_keeps_heap|].
      intros parentName. apply keeps_heap_ret.
    + intros row. apply keeps_heap_ret.
  - apply keeps_heap_bind; intros; apply keeps_heap_ret.
Qed.

Lemma keeps_heap_visit_all keys rows :
  keeps_heap (JavascriptIndexPlugin.visit_all getFullName keys rows).
Proof.
  revert rows. induction keys as [|key keys IH]; intros rows; simpl.
  - apply keeps_heap_ret.
  - apply keeps_heap_bind; [apply keeps_heap_visit|]. intros rows'. apply IH.
Qed.

(** C8.  Generating the search index writes no object of the graph:
    every reflection is after [onRendererBegin] as it was before, provided
    [getFullName], which the plugin calls on parents, writes none
    either. *)
Theorem onRendererBegin_keeps_reflections event w :
  heap (JavascriptIndexPlugin.onRendererBegin getFullName JSON_stringify Path_join event w).2
  = heap w.
Proof.
  revert w. fold (keeps_heap (JavascriptIndexPlugin.onRendererBegin getFullName JSON_stringify Path_join event)).
  unfold JavascriptIndexPlugin.onRendererBegin.
  apply keeps_heap_bind; [auto with keeps_heap|]. intros keys.
  apply keeps_heap_bind; [apply keeps_heap_visit_all|]. intros rows.
  apply keeps_heap_writeFile.
Qed.
End plugin_props.

Lemma keeps_heap_getFullName l : keeps_heap (getFullName l).
Proof.
  unfold getFullName, read_reflection.
  apply keeps_heap_bind.
  - apply keeps_heap_bind; [apply keeps_heap_read|].
    intros o. destruct (as_reflection o); [apply keeps_heap_ret|apply keeps_heap_stuck].
  - intros r. apply keeps_heap_ret.
Qed.

Lemma onRendererBegin_keeps_reflections_witness :
  (∀ l, keeps_heap (getFullName l))
  ∧ heap (JavascriptIndexPlugin.onRendererBegin getFullName
            Examples.JSON_stringify Examples.Path_join
            {| JavascriptIndexPlugin.outputDirectory := "out" |}
            Examples.zoo_world).2
    = heap Examples.zoo_world.
Proof.
  split; [exact keeps_heap_getFullName|].
  exact (onRendererBegin_keeps_reflections getFullName
           Examples.JSON_stringify Examples.Path_join keeps_heap_getFullName
           {| JavascriptIndexPlugin.outputDirectory := "out" |}
           Examples.zoo_world).
Defined.

(** The index of the example graph lists its four declarations, members
    under the name of their class. *)
Example onRendererBegin_rows :
  (JavascriptIndexPlugin.visit_all getFullName
     (JavascriptIndexPlugin.keys_in_order
        (reflections (registry Examples.zoo_world)))
     [] Examples.zoo_world).1
  = Returned
      (map (λ '(i, k, full, url, parent),
              {| JavascriptIndexPlugin.row_id := i;
                 JavascriptIndexPlugin.row_kind := k;
                 JavascriptIndexPlugin.fullName := full;
                 JavascriptIndexPlugin.row_url := Some url;
                 JavascriptIndexPlugin.classes := None;
                 JavascriptIndexPlugin.row_parent := parent |})
         [(0%nat, ReflectionKind.Class, "Animal", "classes/animal.html", None);
          (1%nat, ReflectionKind.Accessor, "Animal.name",
           "classes/animal.html#name", Some "Animal");
          (2%nat, ReflectionKind.Class, "Dog", "classes/dog.html", None);
          (3%nat, ReflectionKind.Method, "Dog.bark", "classes/dog.html#bark",
           Some "Dog")]).
Proof. vm_compute. reflexivity. Qed.

(** ** Reference Resolver: type hierarchies *)

Import ReferenceResolver.

Lemma layers_chain ls hierarchy :
  chain ls = Some hierarchy →
  layers hierarchy = map (λ layer, (layer.1, flag layer.2)) ls.
Proof.
  revert hierarchy. induction ls as [|[types target] ls IH]; intros hierarchy; [done|].
  simpl. intros [= <-]. simpl. f_equal.
  destruct (chain ls) as [next|] eqn:Hnext.
  - by apply IH.
  - by destruct ls as [|[??] ?].
Qed.

Lemma targets_of_ancestors (levels : list (list Type_)) :
  filter (λ layer : list Type_ * option bool, layer.2 = Some true)
    (map (λ layer : list Type_ * bool, (layer.1, flag layer.2))
       (map (λ types, (types, false)) levels)) = [].
Proof.
  induction levels as [|types levels IH]; [done|].
  simpl. rewrite filter_cons_False by done. exact IH.
Qed.

Lemma computeTypeHierarchy_targets h symbolId l d :
  ∃ hierarchy,
    computeTypeHierarchy h symbolId l d = Some hierarchy
    ∧ targets hierarchy
      = [[ReferenceType (name (reflection (container d))) symbolId (Some l)]].
Proof.
  unfold computeTypeHierarchy.
  set (levels := rev _). set (self := [ReferenceType _ _ _]).
  destruct (chain (map (λ types, (types, false)) levels ++ [(self, true)]))
    as [hierarchy|] eqn:Hchain.
  - exists hierarchy. split; [done|].
    unfold targets. rewrite (layers_chain _ _ Hchain).
    rewrite map_app, filter_app, targets_of_ancestors. done.
  - exfalso. destruct (map _ levels) as [|[??] ?]; discriminate.
Qed.

(** C4.  After the resolver's step for a Declaration, its [typeHierarchy] is
    a chain in which exactly one layer has [isTarget = true], and that layer
    is the resolved reference to the Declaration itself. *)
Theorem typeHierarchy_has_one_target w symbolId l d :
  heap w !! l = Some (Declaration d) →
  ∃ w' d' hierarchy,
    resolveTypeHierarchy symbolId l w = (Returned tt, w')
    ∧ heap w' !! l = Some (Declaration d')
    ∧ typeHierarchy d' = Some hierarchy
    ∧ targets hierarchy
      = [[ReferenceType (name (reflection (container d'))) symbolId (Some l)]].
Proof.
  intros Hl.
  destruct (computeTypeHierarchy_targets (heap w) symbolId l d)
    as (hierarchy & Hcompute & Htargets).
  unfold resolveTypeHierarchy. unfold gets at 1. unfold bind at 1.
  rewrite (bind_Returned _ _ _ _ _ (field_Declaration (λ d, d) _ _ _ Hl)).
  rewrite (update_Some _ _ _ _ Hl). simpl.
  eexists _, _, hierarchy. split; [done|]. simpl.
  rewrite list_lookup_insert_eq by (by eapply lookup_lt_Some).
  split; [done|]. simpl. done.
Qed.

Lemma typeHierarchy_has_one_target_witness :
  heap Examples.zoo_world !! 5%nat = Some (Declaration Examples.dog)
  ∧ ∃ w' d' hierarchy,
      resolveTypeHierarchy 202 5%nat Examples.zoo_world = (Returned tt, w')
      ∧ heap w' !! 5%nat = Some (Declaration d')
      ∧ typeHierarchy d' = Some hierarchy
      ∧ targets hierarchy
        = [[ReferenceType (name (reflection (container d'))) 202 (Some 5%nat)]].
Proof.
  split; [reflexivity|].
  exact (typeHierarchy_has_one_target Examples.zoo_world 202 5%nat
           Examples.dog eq_refl).
Defined.

(** The hierarchy of [Dog]: the layer of its extended types, then its own,
    flagged. *)
Example typeHierarchy_of_dog :
  computeTypeHierarchy Examples.zoo 202 5%nat Examples.dog
  = Some (mkDeclarationHierarchy
            [ReferenceType "Animal" 200 (Some 1%nat);
             ReferenceType "Pet" 201 None]
            (Some (mkDeclarationHierarchy
                     [ReferenceType "Dog" 202 (Some 5%nat)] None (Some true)))
            None).
Proof. reflexivity. Qed.


(** ** [DeclarationReflection.traverse] *)

Lemma visit_then_app visits1 visits2 callback k :
  visit_then (visits1 ++ visits2) callback k
  = visit_then visits1 callback (visit_then visits2 callback k).
Proof.
  induction visits1 as [|[child property] visits1 IH]; [done|].
  simpl. by rewrite IH.
Qed.

(** After a computation that writes no object, what follows may be replaced
    by anything that does the same on the same store. *)
Lemma bind_keeps_heap_ext {A B : Type} (m : M A) (k1 k2 : A → M B) w :
  keeps_heap m →
  (∀ a w1, heap w1 = heap w → k1 a w1 = k2 a w1) →
  bind m k1 w = bind m k2 w.
Proof.
  intros Hm Hk. unfold bind. specialize (Hm w).
  destruct (m w) as [[a|e|] w1]; [|done..]. by apply Hk.
Qed.

Lemma bind_assoc {A B C : Type} (m : M A) (f : A → M B) (g : B → M C) w :
  bind (bind m f) g w = bind m (λ a, bind (f a) g) w.
Proof. unfold bind. by destruct (m w) as [[a|e|] w1]. Qed.

Lemma visit_then_ext visits
    (callback : nat → TraverseProperty.TraverseProperty → M unit) k1 k2 w :
  (∀ child property, keeps_heap (callback child property)) →
  (∀ w1, heap w1 = heap w → k1 w1 = k2 w1) →
  visit_then visits callback k1 w = visit_then visits callback k2 w.
Proof.
  intros Hcallback. revert w.
  induction visits as [|[child property] visits IH]; intros w Hk; simpl.
  - by apply Hk.
  - apply bind_keeps_heap_ext; [done|]. intros _ w1 Hw1.
    apply IH. intros w2 Hw2. apply Hk. congruence.
Qed.

Lemma forEach_visit_then items
    (callback : nat → TraverseProperty.TraverseProperty → M unit)
    property k w :
  (forEach items (λ x, callback x property) ;;; k) w
  = visit_then (map (λ x, (x, property)) items) callback k w.
Proof.
  revert w. induction items as [|x items IH]; intros w; [done|].
  simpl. unfold bind at 1 2 3.
  destruct (callback x property w) as [[[]|e|] w1]; [|done..].
  apply IH.
Qed.

Section traverse_props.
Variable super_traverse :
  (nat → TraverseProperty.TraverseProperty → M unit) → nat → M unit.
Variable callback : nat → TraverseProperty.TraverseProperty → M unit.
Hypothesis callback_keeps_heap :
  ∀ child property, keeps_heap (callback child property).

(** One statement of the form [if (this.f) callback(this.f, property)],
    followed by [prog]. *)
Lemma traverse_stage (f : DeclarationReflection → option nat) property
    (prog : M unit) visits h this d :
  h !! this = Some (Declaration d) →
  (∀ w, heap w = h →
        prog w = visit_then visits callback (super_traverse callback this) w) →
  ∀ w, heap w = h →
    (let* v := DeclarationReflection.field f this in
     match v with
     | Some s => callback s property
     | None => ret tt
     end ;;; prog) w
    = visit_then (map (λ s, (s, property)) (option_list (f d)) ++ visits)
        callback (super_traverse callback this) w.
Proof.
  intros Hthis Hprog w Hw. rewrite <- Hw in Hthis.
  rewrite (bind_Returned _ _ _ _ _ (field_Declaration f _ _ _ Hthis)).
  destruct (f d) as [s|]; simpl.
  - apply bind_keeps_heap_ext; [done|]. intros _ w1 Hw1.
    apply Hprog. congruence.
  - by apply Hprog.
Qed.

(** X1.  With a callback that writes no object of the store, [traverse]
    calls it on the type parameters, on the declaration of a type that is
    an object literal, on the elements of [signatures], and on the index,
    get and set signatures, in this order and each under its own property,
    and then hands over to [super.traverse]; a field that is not set is
    passed over. *)
Theorem traverse_visits this d sigs w :
  heap w !! this = Some (Declaration d) →
  match signatures d with
  | Some a => heap w !! a = Some (Array sigs)
  | None => sigs = []
  end →
  Traversal.traverse super_traverse callback this w
  = visit_then (own_visits d sigs) callback
      (super_traverse callback this) w.
Proof.
  intros Hthis Hsigs. unfold own_visits, Traversal.traverse.
  set (h := heap w) in *.
  assert (Hw : heap w = h) by done. clearbody h. revert w Hw.
  (* the statements of the method, last one first *)
  pose proof (traverse_stage setSignature TraverseProperty.SetSignature
                (super_traverse callback this) [] h this d Hthis
                (λ w _, eq_refl)) as H6.
  rewrite app_nil_r in H6.
  pose proof (traverse_stage getSignature TraverseProperty.GetSignature
                _ _ h this d Hthis H6) as H5.
  pose proof (traverse_stage indexSignature TraverseProperty.IndexSignature
                _ _ h this d Hthis H5) as H4.
  clear H6 H5.
  match type of H4 with
  | ∀ w, _ → ?prog w = visit_then ?visits _ _ _ =>
      assert (H3 : ∀ w, heap w = h →
        (let* v := DeclarationReflection.field signatures this in
         match v with
         | Some a =>
             let* copy := DeclarationReflection.items_of a in
             forEach copy (λ s, callback s TraverseProperty.Signatures)
         | None => ret tt
         end ;;; prog) w
        = visit_then
            (map (λ s, (s, TraverseProperty.Signatures)) sigs ++ visits)
            callback (super_traverse callback this) w)
  end.
  { intros w Hw. rewrite <- Hw in Hthis, Hsigs.
    rewrite (bind_Returned _ _ _ _ _
               (field_Declaration signatures _ _ _ Hthis)).
    destruct (signatures d) as [a|].
    - rewrite bind_assoc.
      rewrite (bind_Returned _ _ _ _ _ (items_of_Array _ _ _ Hsigs)).
      rewrite forEach_visit_then, visit_then_app.
      apply visit_then_ext; [done|]. intros w1 Hw1. apply H4. congruence.
    - subst sigs. simpl. by apply H4. }
  clear H4.
  match type of H3 with
  | ∀ w, _ → ?prog w = visit_then ?visits _ _ _ =>
      assert (H2 : ∀ w, heap w = h →
        (let* type := DeclarationReflection.field type this in
         match type with
         | Some (ReflectionType declaration) =>
             callback declaration TraverseProperty.TypeLiteral
         | _ => ret tt
         end ;;; prog) w
        = visit_then
            (match type d with
             | Some (ReflectionType declaration) =>
                 [(declaration, TraverseProperty.TypeLiteral)]
             | _ => []
             end ++ visits)
            callback (super_traverse callback this) w)
  end.
  { intros w Hw. rewrite <- Hw in Hthis.
    rewrite (bind_Returned _ _ _ _ _ (field_Declaration type _ _ _ Hthis)).
    destruct (type d) as [[]|]; simpl; try (by apply H3).
    apply bind_keeps_heap_ext; [done|]. intros _ w1 Hw1.
    apply H3. congruence. }
  clear H3.
  intros w Hw. rewrite <- Hw in Hthis.
  rewrite (bind_Returned _ _ _ _ _ (field_Declaration typeParameters _ _ _ Hthis)).
  destruct (typeParameters d) as [ps|]; simpl.
  - rewrite forEach_visit_then, visit_then_app.
    apply visit_then_ext; [done|]. intros w1 Hw1. apply H2. congruence.
  - by apply H2.
Qed.
End traverse_props.


(** ** [getAllSignatures], once more *)

(** The world [getAllSignatures] leaves: the store grown by the arrays it
    built, the result last. *)
Lemma getAllSignatures_run w this d sigs :
  heap w !! this = Some (Declaration d) →
  match signatures d with
  | Some a => heap w !! a = Some (Array sigs)
  | None => sigs = []
  end →
  ∃ pre,
    DeclarationReflection.getAllSignatures this w
    = (Returned (length (heap w ++ pre)),
       set_heap (heap w ++ pre
                 ++ [Array (sigs ++ option_list (indexSignature d)
                            ++ option_list (getSignature d)
                            ++ option_list (setSignature d))]) w).
Proof.
  intros Hthis Hsigs.
  assert (Hlt : (this < length (heap w))%nat) by (eapply lookup_lt_Some; eauto).
  unfold DeclarationReflection.getAllSignatures.
  unfold alloc at 1. unfold bind at 1.
  set (w0 := set_heap (heap w ++ [Array []]) w).
  assert (Hthis0 : heap w0 !! this = Some (Declaration d)).
  { subst w0; simpl. by rewrite lookup_app_l. }
  rewrite (bind_Returned _ _ _ _ _ (field_Declaration signatures _ _ _ Hthis0)).
  destruct (signatures d) as [a|].
  - exists [Array []].
    assert (Hconcat : DeclarationReflection.Array_concat (length (heap w)) a w0
            = (Returned (length (heap w ++ [Array []])),
               set_heap (heap w ++ [Array []] ++ [Array ([] ++ sigs)]) w)).
    { unfold DeclarationReflection.Array_concat.
      assert (H0 : heap w0 !! length (heap w) = Some (Array [])).
      { subst w0; simpl. by rewrite list_lookup_middle. }
      rewrite (bind_Returned _ _ _ _ _ (items_of_Array _ _ _ H0)).
      assert (Ha : heap w0 !! a = Some (Array sigs)).
      { subst w0; simpl. rewrite lookup_app_l; [done|]. by eapply lookup_lt_Some. }
      rewrite (bind_Returned _ _ _ _ _ (items_of_Array _ _ _ Ha)).
      unfold alloc. subst w0; simpl. unfold set_heap; simpl.
      by rewrite <- app_assoc. }
    rewrite (bind_Returned _ _ _ _ _ Hconcat).
    by rewrite (pushes_run (heap w) [Array []] ([] ++ sigs) this d
                  (length (heap w ++ [Array []]))
                  (set_heap (heap w ++ [Array []] ++ [Array ([] ++ sigs)]) w)
                  eq_refl Hthis eq_refl).
  - exists []. subst sigs. unfold ret at 1. unfold bind at 1.
    rewrite (pushes_run (heap w) [] [] this d (length (heap w)) w0
               eq_refl Hthis); [|by rewrite app_nil_r].
    by rewrite app_nil_r.
Qed.

Lemma signature_visits_tagged property (l : list nat) :
  map fst (filter (λ v : nat * TraverseProperty.TraverseProperty,
                     is_signature_property v.2 = true)
             (map (λ s, (s, property)) l))
  = if is_signature_property property then l else [].
Proof.
  induction l as [|x l IH]; [by destruct (is_signature_property property)|].
  simpl. destruct (is_signature_property property) eqn:Hp.
  - rewrite filter_cons_True by done. simpl. by rewrite IH.
  - rewrite filter_cons_False by (simpl; congruence). done.
Qed.

Lemma signature_visits d sigs :
  map fst (filter (λ v : nat * TraverseProperty.TraverseProperty,
                     is_signature_property v.2 = true)
             (own_visits d sigs))
  = sigs ++ option_list (indexSignature d) ++ option_list (getSignature d)
    ++ option_list (setSignature d).
Proof.
  unfold own_visits. rewrite !filter_app, !map_app.
  rewrite !signature_visits_tagged. simpl.
  by destruct (type d) as [[]|].
Qed.

(** X2.  [getAllSignatures] returns the reflections [traverse] visits
    under the four signature properties, in the order it visits them. *)
Theorem getAllSignatures_returns_signature_visits w this d sigs :
  heap w !! this = Some (Declaration d) →
  match signatures d with
  | Some a => heap w !! a = Some (Array sigs)
  | None => sigs = []
  end →
  ∃ result w',
    DeclarationReflection.getAllSignatures this w = (Returned result, w')
    ∧ heap w' !! result
      = Some (Array (map fst
                       (filter (λ v : nat * TraverseProperty.TraverseProperty,
                                  is_signature_property v.2 = true)
                          (own_visits d sigs)))).
Proof.
  intros Hthis Hsigs.
  destruct (getAllSignatures_run w this d sigs Hthis Hsigs) as [pre Hrun].
  eexists _, _. split; [exact Hrun|]. simpl.
  rewrite signature_visits, app_assoc. by rewrite list_lookup_middle.
Qed.

(** X3.  [getAllSignatures] returns an array that did not exist before
    the call and writes no object that did, the [signatures] array of the
    declaration among them; the registry, the scope and the files are as
    they were. *)
Theorem getAllSignatures_keeps_store w this d sigs :
  heap w !! this = Some (Declaration d) →
  match signatures d with
  | Some a => heap w !! a = Some (Array sigs)
  | None => sigs = []
  end →
  ∃ result w',
    DeclarationReflection.getAllSignatures this w = (Returned result, w')
    ∧ heap w !! result = None
    ∧ (∀ l o, heap w !! l = Some o → heap w' !! l = Some o)
    ∧ registry w' = registry w
    ∧ scope w' = scope w
    ∧ files w' = files w.
Proof.
  intros Hthis Hsigs.
  destruct (getAllSignatures_run w this d sigs Hthis Hsigs) as [pre Hrun].
  eexists _, _. split; [exact Hrun|]. simpl. split_and!; try done.
  - apply lookup_ge_None. rewrite length_app. lia.
  - intros l o Hl. by apply lookup_app_l_Some.
Qed.


(** ** [findReflectionByName], once more *)

Lemma split_dotless_append x rest :
  dotless x = true →
  split "."%char (x +:+ "." +:+ rest) = x :: split "."%char rest.
Proof.
  induction x as [|c x IH]; intros Hx; [done|].
  simpl in Hx. apply andb_true_iff in Hx as [Hc Hx].
  apply negb_true_iff in Hc. simpl. rewrite Hc. by rewrite IH.
Qed.

Lemma split_dotless x : dotless x = true → split "."%char x = [x].
Proof.
  induction x as [|c x IH]; intros Hx; [done|].
  simpl in Hx. apply andb_true_iff in Hx as [Hc Hx].
  apply negb_true_iff in Hc. simpl. rewrite Hc. by rewrite IH.
Qed.

Lemma split_concat names :
  names ≠ [] →
  forallb dotless names = true →
  split "."%char (String.concat "." names) = names.
Proof.
  induction names as [|x names IH]; [done|]. intros _ Hnames.
  simpl in Hnames. apply andb_true_iff in Hnames as [Hx Hnames].
  destruct names as [|y names]; [by apply split_dotless|].
  change (String.concat "." (x :: y :: names))
    with (x +:+ "." +:+ String.concat "." (y :: names)).
  rewrite split_dotless_append by done. by rewrite IH.
Qed.

Section find_more.
Variable getChildByName : list object → nat → list string → option nat.
Variable base : list object → nat → list string → outcome (option nat).

(** X5.  A dotted name and the list of its parts are one argument to
    [findReflectionByName]: joining names that hold no dot and passing the
    string gives what passing the list gives. *)
Theorem findReflectionByName_dotted_name fuel h this names searchUp :
  names ≠ [] →
  forallb dotless names = true →
  DeclarationReflection.findReflectionByName getChildByName base fuel h this
    (inl (String.concat "." names)) searchUp
  = DeclarationReflection.findReflectionByName getChildByName base fuel h this
      (inr names) searchUp.
Proof.
  intros Hne Hnames. unfold DeclarationReflection.findReflectionByName.
  simpl. by rewrite split_concat.
Qed.

Lemma findReflectionByName_fuel rank h names fuel1 :
  search_edges_descend rank h →
  ∀ fuel2 this searchUp,
    (rank this < fuel1)%nat → (rank this < fuel2)%nat →
    DeclarationReflection.findReflectionByName_names getChildByName base fuel1
      h this names searchUp
    = DeclarationReflection.findReflectionByName_names getChildByName base
        fuel2 h this names searchUp
    ∧ is_Some (DeclarationReflection.findReflectionByName_names getChildByName
                 base fuel1 h this names searchUp).
Proof.
  intros Hdescend. induction fuel1 as [|fuel1 IH];
    intros fuel2 this searchUp H1 H2; [lia|].
  destruct fuel2 as [|fuel2]; [lia|].
  rewrite !find_unfold.
  destruct (h !! this) as [[p|d|s|r|items]|] eqn:Hthis; try by eauto.
  destruct (getChildByName h this names); [by eauto|].
  destruct (Hdescend _ _ Hthis) as [Hparent Hfirst].
  assert (Hcall : ∀ r su,
    (rank r < rank this)%nat →
    DeclarationReflection.call getChildByName base fuel1 h r names su
    = DeclarationReflection.call getChildByName base fuel2 h r names su
    ∧ is_Some (DeclarationReflection.call getChildByName base fuel1 h r
                 names su)).
  { intros r su Hr. unfold DeclarationReflection.call.
    destruct (h !! r) as [[]|]; try by eauto.
    apply IH; lia. }
  assert (Hsearch :
    DeclarationReflection.searchParent getChildByName base fuel1 h d names
    = DeclarationReflection.searchParent getChildByName base fuel2 h d names
    ∧ is_Some (DeclarationReflection.searchParent getChildByName base fuel1
                 h d names)).
  { unfold DeclarationReflection.searchParent.
    destruct (parent _) as [p|]; [|by eauto]. by apply Hcall, Hparent. }
  destruct Hsearch as [<- Hsome].
  destruct (searchUp && truthy (extendedTypes d)); [|done].
  destruct (extendedTypes d) as [[|first rest]|]; try by eauto.
  simpl. destruct (Type_reflection first) as [p|] eqn:Hp; [|done].
  destruct (Hcall p searchUp) as [<- [r Hr]]; [by eapply Hfirst|].
  rewrite Hr. by destruct r as [[]| |]; eauto.
Qed.

(** X6.  On a graph where a parent and a first extended type always have
    a smaller rank than the declaration they belong to,
    [findReflectionByName] ends as soon as the depth allowed exceeds the
    rank of the declaration it starts from, and a larger depth does not
    change what it returns. *)
Theorem findReflectionByName_terminates rank h fuel this names searchUp :
  search_edges_descend rank h →
  (rank this < fuel)%nat →
  is_Some (DeclarationReflection.findReflectionByName_names getChildByName
             base fuel h this names searchUp)
  ∧ ∀ fuel', (rank this < fuel')%nat →
             DeclarationReflection.findReflectionByName_names getChildByName
               base fuel' h this names searchUp
             = DeclarationReflection.findReflectionByName_names getChildByName
                 base fuel h this names searchUp.
Proof.
  intros Hdescend Hfuel. split.
  - by eapply (findReflectionByName_fuel rank h names fuel Hdescend fuel).
  - intros fuel' Hfuel'.
    by eapply (findReflectionByName_fuel rank h names fuel' Hdescend fuel).
Qed.
End find_more.

(** ** [findReflectionByName]: where an exception comes from *)

Section find_throw.
Variable getChildByName : list object → nat → list string → option nat.
Variable base : list object → nat → list string → outcome (option nat).

(** X7.  An exception out of [findReflectionByName] has one of two
    origins: the [findReflectionByName] of a reflection that is not a
    declaration threw it, or it is the [TypeError] raised at a declaration
    whose [extendedTypes] is the empty array and which has no child of the
    name. *)
Theorem findReflectionByName_throw_origin fuel h this names searchUp e :
  DeclarationReflection.findReflectionByName_names getChildByName base fuel
    h this names searchUp = Some (Thrown e) →
  (∃ l, base h l names = Thrown e)
  ∨ (e = TypeError
     ∧ ∃ l d, h !! l = Some (Declaration d)
              ∧ extendedTypes d = Some []
              ∧ getChildByName h l names = None).
Proof.
  revert this searchUp.
  induction fuel as [|fuel IH]; intros this searchUp; [done|].
  assert (Hcall : ∀ r su,
    DeclarationReflection.call getChildByName base fuel h r names su
    = Some (Thrown e) →
    (∃ l, base h l names = Thrown e)
    ∨ (e = TypeError
       ∧ ∃ l d, h !! l = Some (Declaration d)
                ∧ extendedTypes d = Some []
                ∧ getChildByName h l names = None)).
  { intros r su. unfold DeclarationReflection.call.
    destruct (h !! r) as [[]|]; try done; try apply IH;
      intros [= ?]; left; by eexists. }
  assert (Hparent : ∀ d,
    DeclarationReflection.searchParent getChildByName base fuel h d names
    = Some (Thrown e) →
    (∃ l, base h l names = Thrown e)
    ∨ (e = TypeError
       ∧ ∃ l d, h !! l = Some (Declaration d)
                ∧ extendedTypes d = Some []
                ∧ getChildByName h l names = None)).
  { intros d. unfold DeclarationReflection.searchParent.
    destruct (parent _); [apply Hcall|done]. }
  rewrite find_unfold.
  destruct (h !! this) as [[p|d|s|r|items]|] eqn:Hthis; try done.
  destruct (getChildByName h this names) eqn:Hchild; [done|].
  destruct (searchUp && truthy (extendedTypes d)) eqn:Hup; [|apply Hparent].
  destruct (extendedTypes d) as [[|first rest]|] eqn:Hext;
    [|simpl|by rewrite andb_false_r in Hup].
  - simpl. intros [= <-]. right. split; [done|]. by exists this, d.
  - destruct (Type_reflection first) as [p|]; [|apply Hparent].
    pose proof (Hcall p searchUp) as Hp.
    destruct (DeclarationReflection.call _ _ _ _ _ _ _) as [[[?|]| |]|];
      try done; try apply Hparent.
Qed.
End find_throw.

(** ** [AccessorConverter.convert], once more *)

Lemma bind_ext_on {A B : Type} (m : M A) (k k' : A → M B) w :
  (∀ a w1, m w = (Returned a, w1) → k a w1 = k' a w1) →
  bind m k w = bind m k' w.
Proof.
  intros Hk. unfold bind. destruct (m w) as [[a|e|] w1]; [by apply Hk|done..].
Qed.


Lemma step_id_at w w' l i :
  step w w' → id_at w l = Some i → id_at w' l = Some i.
Proof.
  intros Hstep Hid. pose proof (id_at_lt _ _ _ Hid) as Hlt.
  destruct Hstep as [o w _|items w|l' f w Hf|sym l' w|s w|f w]; try done.
  - rewrite new_reflection_run. unfold id_at in *; simpl.
    by rewrite lookup_app_l.
  - unfold id_at in *; simpl. by rewrite lookup_app_l.
  - unfold update. destruct (heap w !! l') as [o|] eqn:Hl'; [|done].
    unfold id_at in *; simpl. destruct (decide (l = l')) as [->|Hne].
    + rewrite list_lookup_insert_eq by done. rewrite Hl' in Hid. simpl in *.
      by rewrite Hf.
    + by rewrite list_lookup_insert_ne.
Qed.

Lemma steps_id_at w w' l i :
  rtc step w w' → id_at w l = Some i → id_at w' l = Some i.
Proof.
  induction 1 as [|w1 w2 w3 Hstep _ IH]; [done|].
  intros Hid. by eapply IH, step_id_at.
Qed.

(** X15.  [convert] renumbers nothing: a reflection registered under an
    id before the call is registered under it after the call, and still
    has it, however the call ends. *)
Theorem convert_keeps_registered_reflections
    (convertType : option ts.TypeNode → option ts.Type_ → M (option Type_))
    (getTypeAtLocation : ts.SignatureDeclaration → option ts.Type_)
    node base w i l :
  (∀ typeNode type, steps (convertType typeNode type)) →
  registry_ok base w →
  reflections (registry w) !! i = Some l →
  reflections
    (registry (AccessorConverter.convert convertType getTypeAtLocation node
                 w).2) !! i = Some l
  ∧ id_at (AccessorConverter.convert convertType getTypeAtLocation node w).2 l
    = Some i.
Proof.
  intros HconvertType Hok Hi.
  pose proof (steps_convert convertType getTypeAtLocation node HconvertType w)
    as Hsteps.
  pose proof (registry_ok_steps _ _ _ Hok Hsteps) as Hok'.
  destruct (ok_index _ _ Hok _ _ Hi) as [_ Hid].
  pose proof (steps_id_at _ _ _ _ Hsteps Hid) as Hid'.
  split; [|done]. by apply (ok_indexed _ _ Hok').
Qed.

Lemma land_ClassOrInterface n :
  0 ≤ n →
  Z.land (2 ^ n) ReflectionKind.ClassOrInterface ≠ 0
  ↔ 2 ^ n = ReflectionKind.Class ∨ 2 ^ n = ReflectionKind.Interface.
Proof.
  intros Hn. destruct (decide (n ≤ 8)) as [Hle|Hgt].
  - assert (Hcases : n = 0 ∨ n = 1 ∨ n = 2 ∨ n = 3 ∨ n = 4 ∨ n = 5 ∨ n = 6
                     ∨ n = 7 ∨ n = 8) by lia.
    destruct_or!; subst n; apply (bool_decide_unpack _); vm_compute; exact I.
  - assert (Hzero : Z.land (2 ^ n) ReflectionKind.ClassOrInterface = 0).
    { apply Z.bits_inj_0. intros m. rewrite Z.land_spec.
      destruct (decide (m < 0)) as [Hm|Hm];
        [by rewrite (Z.testbit_neg_r _ m)|].
      rewrite Z.pow2_bits_eqb by done.
      destruct (Z.eqb_spec n m) as [<-|]; [|done]. simpl.
      apply Z.bits_above_log2; [done|]. vm_compute Z.log2. lia. }
    assert (2 ^ 9 ≤ 2 ^ n) by (apply Z.pow_le_mono_r; lia).
    unfold ReflectionKind.Class, ReflectionKind.Interface.
    split; [by rewrite Hzero|]. change (2 ^ 9) with 512 in *. lia.
Qed.

(** X16.  In a scope of a single kind, an accessor is converted as a
    constant exactly when the scope is a class or an interface and the
    comment of the node has the [constant] tag. *)
Theorem declarationKind_single_kind n comment :
  0 ≤ n →
  AccessorConverter.declarationKind (2 ^ n) comment = ReflectionKind.Constant
  ↔ (2 ^ n = ReflectionKind.Class ∨ 2 ^ n = ReflectionKind.Interface)
    ∧ ∃ c, comment = Some c ∧ hasTag c "constant" = true.
Proof.
  intros Hn. rewrite declarationKind_Constant.
  by rewrite land_ClassOrInterface.
Qed.

(** ** [DeclarationReflection.toObject], once more *)

Lemma put_all_keeps puts (result : gmap string JValue) key :
  is_Some (result !! key) → is_Some (put_all puts result !! key).
Proof.
  intros Hkey. induction puts as [|[k v] puts IH]; [done|]. simpl.
  destruct (decide (k = key)) as [->|Hne].
  - rewrite lookup_put_when_set_eq. by destruct v.
  - by rewrite lookup_put_when_set_ne.
Qed.

Lemma put_all_adds puts (result : gmap string JValue) key :
  is_Some (put_all puts result !! key) →
  is_Some (result !! key) ∨ key ∈ map fst puts.
Proof.
  induction puts as [|[k v] puts IH]; [by left|]. simpl.
  destruct (decide (k = key)) as [->|Hne].
  - intros _. right. apply list_elem_of_here.
  - rewrite lookup_put_when_set_ne by done. intros Hkey.
    destruct (IH Hkey) as [?|?]; [by left|right].
    by apply list_elem_of_further.
Qed.

(** What writes leave under a key does not depend on what was there, or
    is what was there. *)
Lemma put_all_lookup puts key :
  (∃ v, ∀ result : gmap string JValue, put_all puts result !! key = v)
  ∨ (∀ result : gmap string JValue, put_all puts result !! key = result !! key).
Proof.
  induction puts as [|[k v] puts IH]; [by right|]. simpl.
  destruct (decide (k = key)) as [->|Hne].
  - destruct v as [v|].
    + left. exists (Some v). intros result. apply lookup_insert_eq.
    + done.
  - destruct IH as [[v' IH]|IH].
    + left. exists v'. intros result.
      by rewrite lookup_put_when_set_ne.
    + right. intros result. by rewrite lookup_put_when_set_ne.
Qed.

Lemma put_all_idempotent puts (result : gmap string JValue) :
  put_all puts (put_all puts result) = put_all puts result.
Proof.
  apply map_eq. intros key.
  destruct (put_all_lookup puts key) as [[v Hv]|Hid].
  - by rewrite !Hv.
  - by rewrite Hid.
Qed.

Section toObject_more.
Variable Type_toObject : Type_ → JValue.

Lemma toObject_put_all super this :
  DeclarationReflection.toObject Type_toObject super this
  = put_all (declaration_puts Type_toObject this) super.
Proof. apply toObject_puts. Qed.

(** X8.  [toObject] writes values that depend on the declaration only:
    applied to its own result in the place of [super.toObject()], it
    returns that result. *)
Theorem toObject_idempotent super this :
  DeclarationReflection.toObject Type_toObject
    (DeclarationReflection.toObject Type_toObject super this) this
  = DeclarationReflection.toObject Type_toObject super this.
Proof. rewrite !toObject_put_all. apply put_all_idempotent. Qed.

(** X9.  [toObject] removes no key [super.toObject()] put in the
    result, and adds none but the nine of its own. *)
Theorem toObject_keeps_super_keys super this key :
  (is_Some (super !! key) →
   is_Some (DeclarationReflection.toObject Type_toObject super this !! key))
  ∧ (is_Some (DeclarationReflection.toObject Type_toObject super this !! key) →
     is_Some (super !! key) ∨ key ∈ declaration_keys).
Proof.
  rewrite toObject_put_all. split; [apply put_all_keeps|].
  intros Hkey. apply put_all_adds in Hkey as [?|Hkey]; [by left|right].
  change (map fst (declaration_puts Type_toObject this))
    with (reverse declaration_keys) in Hkey.
  by apply elem_of_reverse in Hkey.
Qed.
End toObject_more.

(** ** [hasGetterOrSetter] and [toString] *)

Lemma elem_of_tagged (s : nat) (p q : TraverseProperty.TraverseProperty)
    (l : list nat) :
  (s, p) ∈ map (λ x, (x, q)) l → p = q ∧ s ∈ l.
Proof.
  induction l as [|x l IH]; simpl.
  - by intros ?%elem_of_nil.
  - intros [[= -> ->]|Hl]%elem_of_cons.
    + split; [done|apply list_elem_of_here].
    + destruct (IH Hl). split; [done|by apply list_elem_of_further].
Qed.

Lemma own_visits_accessor d sigs s p :
  p = TraverseProperty.GetSignature ∨ p = TraverseProperty.SetSignature →
  (s, p) ∈ own_visits d sigs →
  DeclarationReflection.hasGetterOrSetter d = true.
Proof.
  intros Hp. unfold own_visits, DeclarationReflection.hasGetterOrSetter.
  rewrite !elem_of_app. intros Hin.
  destruct Hin as [Hin|[Hin|[Hin|[Hin|[Hin|Hin]]]]].
  - apply elem_of_tagged in Hin as [-> _]. by destruct Hp.
  - destruct (type d) as [[]|]; try (by apply elem_of_nil in Hin).
    apply list_elem_of_singleton in Hin as [= _ ->]. by destruct Hp.
  - apply elem_of_tagged in Hin as [-> _]. by destruct Hp.
  - apply elem_of_tagged in Hin as [-> _]. by destruct Hp.
  - apply elem_of_tagged in Hin as [_ Hin].
    destruct (getSignature d); [done|by apply elem_of_nil in Hin].
  - apply elem_of_tagged in Hin as [_ Hin].
    destruct (setSignature d); [|by apply elem_of_nil in Hin].
    simpl. apply orb_true_r.
Qed.


Lemma append_assoc (a b c : string) : (a +:+ b) +:+ c = a +:+ b +:+ c.
Proof.
  induction a as [|x a IH]; [done|].
  cbv [String.append]. fold String.append. by f_equal.
Qed.

Lemma append_empty_r (a : string) : a +:+ "" = a.
Proof.
  induction a as [|x a IH]; [done|].
  cbv [String.append]. fold String.append. by f_equal.
Qed.

Section toString_props.
Variable Type_toString : Type_ → string.

(** X10.  [toString] returns the string of [super.toString()] followed
    by a suffix, which is empty exactly when the declaration has neither
    type parameters nor a type. *)
Theorem toString_extends_super super h this :
  match typeParameters this with
  | Some parameters => is_Some (Traversal.names_at h parameters)
  | None => True
  end →
  ∃ suffix,
    Traversal.toString Type_toString super h this = Some (super +:+ suffix)
    ∧ (suffix = "" ↔ typeParameters this = None ∧ type this = None).
Proof.
  unfold Traversal.toString. intros Hnames.
  destruct (typeParameters this) as [parameters|].
  - destruct Hnames as [names ->]. simpl.
    destruct (type this) as [t|].
    + exists (("<" +:+ String.concat ", " names +:+ ">")
              +:+ ":" +:+ Type_toString t).
      split; [by rewrite append_assoc|]. split; [done|]. by intros [[=] _].
    + exists ("<" +:+ String.concat ", " names +:+ ">").
      split; [done|]. split; [done|]. by intros [[=] _].
  - simpl. destruct (type this) as [t|].
    + exists (":" +:+ Type_toString t).
      split; [done|]. split; [done|]. by intros [_ [=]].
    + exists "". by rewrite append_empty_r.
Qed.
End toString_props.

(** ** The rows of the search index *)

Lemma keeps_world_ret {A : Type} (a : A) : keeps_world (ret a).
Proof. done. Qed.

Lemma keeps_world_stuck {A : Type} : keeps_world (@stuck A).
Proof. done. Qed.

Lemma keeps_world_gets {A : Type} (f : World → A) : keeps_world (gets f).
Proof. done. Qed.

Lemma keeps_world_read l : keeps_world (read l).
Proof. intros w. unfold read. by destruct (heap w !! l). Qed.

Lemma keeps_world_bind {A B : Type} (m : M A) (k : A → M B) :
  keeps_world m → (∀ a, keeps_world (k a)) → keeps_world (bind m k).
Proof.
  intros Hm Hk w. unfold bind. specialize (Hm w).
  destruct (m w) as [[a|e|] w1]; simpl in *; [|done..].
  by rewrite Hk.
Qed.

Lemma keeps_world_getFullName l : keeps_world (getFullName l).
Proof.
  unfold getFullName, read_reflection.
  apply keeps_world_bind.
  - apply keeps_world_bind; [apply keeps_world_read|].
    intros o. destruct (as_reflection o);
      [apply keeps_world_ret|apply keeps_world_stuck].
  - intros r. apply keeps_world_ret.
Qed.

Lemma keys_in_order_ascending (m : gmap Z nat) :
  StronglySorted Z.lt (JavascriptIndexPlugin.keys_in_order m).
Proof.
  unfold JavascriptIndexPlugin.keys_in_order.
  assert (Hnodup : NoDup (merge_sort Z.le (map fst (map_to_list m)))).
  { rewrite merge_sort_Permutation. apply NoDup_fst_map_to_list. }
  assert (Hsorted : StronglySorted Z.le
                      (merge_sort Z.le (map fst (map_to_list m)))).
  { apply StronglySorted_merge_sort; [apply _|]. intros x y. lia. }
  induction Hsorted as [|x l Hl IH Hx]; [constructor|].
  apply NoDup_cons in Hnodup as [Hnotin Hnodup].
  constructor; [by apply IH|].
  apply Forall_forall. intros y Hy.
  rewrite Forall_forall in Hx. specialize (Hx y Hy).
  assert (x ≠ y) by (by intros ->). lia.
Qed.

Lemma keys_in_order_length (m : gmap Z nat) :
  length (JavascriptIndexPlugin.keys_in_order m) = size m.
Proof.
  unfold JavascriptIndexPlugin.keys_in_order.
  rewrite merge_sort_Permutation, length_map. apply length_map_to_list.
Qed.

Section rows.
Variable getFullName : nat → M string.
Variable JSON_stringify : list JavascriptIndexPlugin.Row → string.
Variable Path_join : list string → string.

Lemma visit_row key rows w rows' w' :
  JavascriptIndexPlugin.visit getFullName key rows w = (Returned rows', w') →
  rows' = rows
  ∨ ∃ row, rows' = rows ++ [row]
           ∧ JavascriptIndexPlugin.row_id row = length rows
           ∧ row_ok row.
Proof.
  unfold JavascriptIndexPlugin.visit, gets, bind at 1. simpl.
  destruct (reflections (registry w) !! key) as [l|]; [|done].
  unfold read, bind at 1.
  destruct (heap w !! l) as [[p|d|s|r|items]|]; simpl;
    try (intros [= <- <-]; by left); try done.
  destruct (_ || _) eqn:Hskip; [intros [= <- <-]; by left|].
  repeat (apply orb_false_iff in Hskip as [Hskip ?]).
  apply negb_false_iff in Hskip.
  assert (Hname : name (reflection (container d)) ≠ "")
    by (by apply String.eqb_neq).
  unfold bind at 1.
  set (found := match parent (reflection (container d)) with
                | Some p => _
                | None => _
                end).
  destruct (found w) as [[[p|]|e|] w1]; simpl; try done.
  - unfold bind at 1 2.
    destruct (getFullName p w1) as [[parentName|e|] w2]; simpl; try done.
    intros [= <- <-]. right. eexists. split; [done|]. split; [done|].
    split; [done|]. simpl. by eexists.
  - intros [= <- <-]. right. eexists. split; [done|]. split; [done|].
    by split.
Qed.

Lemma visit_all_rows keys rows0 w rows w' :
  JavascriptIndexPlugin.visit_all getFullName keys rows0 w
  = (Returned rows, w') →
  ∃ new, rows = rows0 ++ new
         ∧ map JavascriptIndexPlugin.row_id new
           = seq (length rows0) (length new)
         ∧ Forall row_ok new
         ∧ (length new ≤ length keys)%nat.
Proof.
  revert rows0 w. induction keys as [|key keys IH]; intros rows0 w; simpl.
  - intros [= <- <-]. exists []. rewrite app_nil_r. by repeat split.
  - unfold bind at 1.
    destruct (JavascriptIndexPlugin.visit getFullName key rows0 w)
      as [[rows1|e|] w1] eqn:Hvisit; simpl; try done.
    intros Hrest. apply IH in Hrest as (new & -> & Hids & Hok & Hlen).
    apply visit_row in Hvisit as [->|(row & -> & Hid & Hrow)].
    + exists new. repeat split; [done..|lia].
    + exists (row :: new). rewrite <-app_assoc. split; [done|].
      rewrite length_app in Hids. simpl in *.
      rewrite Hid, Hids, Nat.add_1_r. repeat split; [by constructor|lia].
Qed.


Hypothesis getFullName_keeps_world : ∀ l, keeps_world (getFullName l).

Lemma keeps_world_visit key rows :
  keeps_world (JavascriptIndexPlugin.visit getFullName key rows).
Proof.
  unfold JavascriptIndexPlugin.visit.
  apply keeps_world_bind; [apply keeps_world_gets|]. intros index.
  destruct (index !! key) as [l|]; [|apply keeps_world_stuck].
  apply keeps_world_bind; [apply keeps_world_read|].
  intros [p|d|s|r|items]; try apply keeps_world_ret.
  destruct (_ || _); [apply keeps_world_ret|].
  apply keeps_world_bind.
  { destruct (parent _) as [p|]; [|apply keeps_world_ret].
    apply keeps_world_bind; [apply keeps_world_read|].
    intros []; apply keeps_world_ret. }
  intros [p|].
  - apply keeps_world_bind.
    + apply keeps_world_bind; [apply getFullName_keeps_world|].
      intros parentName. apply keeps_world_ret.
    + intros row. apply keeps_world_ret.
  - apply keeps_world_bind; intros; apply keeps_world_ret.
Qed.

Lemma keeps_world_visit_all keys rows :
  keeps_world (JavascriptIndexPlugin.visit_all getFullName keys rows).
Proof.
  revert rows. induction keys as [|key keys IH]; intros rows; simpl.
  - apply keeps_world_ret.
  - apply keeps_world_bind; [apply keeps_world_visit|]. intros rows'. apply IH.
Qed.

Lemma visit_row_from key rows w rows' :
  JavascriptIndexPlugin.visit getFullName key rows w = (Returned rows', w) →
  if is_indexed w key
  then ∃ row, rows' = rows ++ [row] ∧ row_from getFullName w key row
  else rows' = rows.
Proof.
  unfold JavascriptIndexPlugin.visit, is_indexed, gets, bind at 1. simpl.
  destruct (reflections (registry w) !! key) as [l|] eqn:Hkey; [|done].
  unfold read, bind at 1.
  destruct (heap w !! l) as [[p|d|s|r|items]|] eqn:Hl; simpl;
    try (by intros [= <-]); try done.
  destruct (_ || _) eqn:Hskip.
  - intros [= <-].
    repeat (apply orb_true_iff in Hskip as [Hskip|Hskip]).
    + apply negb_true_iff in Hskip. by rewrite Hskip.
    + apply negb_true_iff, negb_false_iff in Hskip.
      by rewrite Hskip, andb_false_r.
    + by rewrite Hskip, andb_false_r.
    + by rewrite Hskip, andb_false_r.
  - repeat (apply orb_false_iff in Hskip as [Hskip ?]).
    apply negb_false_iff in Hskip.
    replace (_ && _ && _) with true
      by (symmetry; repeat (apply andb_true_iff; split);
          [done|by apply negb_true_iff..]).
    unfold bind at 1.
    destruct (parent (reflection (container d))) as [p|] eqn:Hparent.
    + unfold bind at 1.
      destruct (heap w !! p) as [po|] eqn:Hp; simpl; [|done].
      assert (Hcases :
        (is_project po = true
         ∧ (match po with Project _ => ret None | _ => ret (Some p) end) w
           = (Returned None, w))
        ∨ (is_project po = false
           ∧ (match po with Project _ => ret None | _ => ret (Some p) end) w
             = (Returned (Some p), w)))
        by (destruct po; first [by left|by right]).
      destruct Hcases as [[Hpo ->]|[Hpo ->]]; simpl.
      * intros [= <-]. eexists. split; [done|].
        exists l, d. repeat split; try done. simpl.
        right. by exists p, po.
      * unfold bind at 1 2. pose proof (getFullName_keeps_world p w) as Hw.
        destruct (getFullName p w) as [[parentName|e|] w2] eqn:Hfull;
          simpl in *; try done.
        intros [= <-]. eexists. split; [done|].
        exists l, d. repeat split; try done. simpl.
        exists p, po. rewrite Hparent, Hfull. by repeat split.
    + simpl. intros [= <-]. eexists. split; [done|].
      exists l, d. repeat split; try done. simpl. by left.
Qed.

Lemma visit_all_rows_from keys rows0 w rows :
  JavascriptIndexPlugin.visit_all getFullName keys rows0 w
  = (Returned rows, w) →
  ∃ new, rows = rows0 ++ new
         ∧ Forall2 (row_from getFullName w)
             (filter (λ key, is_indexed w key = true) keys) new.
Proof.
  revert rows0. induction keys as [|key keys IH]; intros rows0; simpl.
  - intros [= <-]. exists []. by rewrite app_nil_r.
  - unfold bind at 1. pose proof (keeps_world_visit key rows0 w) as Hw.
    destruct (JavascriptIndexPlugin.visit getFullName key rows0 w)
      as [[rows1|e|] w1] eqn:Hvisit; simpl in *; try done.
    subst w1. intros Hrest. apply IH in Hrest as (new & -> & Hnew).
    apply visit_row_from in Hvisit.
    destruct (is_indexed w key) eqn:Hkey.
    + destruct Hvisit as (row & -> & Hrow).
      exists (row :: new). rewrite <-app_assoc. split; [done|].
      rewrite filter_cons_True by done. by constructor.
    + subst rows1. exists new. split; [done|].
      by rewrite filter_cons_False by congruence.
Qed.


Lemma visit_returns key l rows w :
  index_ready getFullName w →
  reflections (registry w) !! key = Some l →
  ∃ rows', JavascriptIndexPlugin.visit getFullName key rows w
           = (Returned rows', w).
Proof.
  intros Hready Hkey. destruct (Hready _ _ Hkey) as (o & Hl & Hparent).
  unfold JavascriptIndexPlugin.visit, gets, bind at 1. simpl. rewrite Hkey.
  unfold read, bind at 1. rewrite Hl.
  destruct o as [p|d|s|r|items]; try (by eexists).
  destruct (_ || _); [by eexists|].
  unfold bind at 1.
  destruct (parent (reflection (container d))) as [p|] eqn:Hp;
    [|by eexists].
  destruct (Hparent d p eq_refl Hp) as (po & Hpo & Hname).
  unfold bind at 1. rewrite Hpo.
  destruct (is_project po) eqn:Hproject.
  - destruct po; try done. by eexists.
  - destruct (Hname eq_refl) as [parentName Hfull].
    pose proof (getFullName_keeps_world p w) as Hw.
    assert (Hrun : getFullName p w = (Returned parentName, w)).
    { destruct (getFullName p w) as [r w1]. simpl in *. by subst. }
    destruct po; try done;
      unfold ret at 1; unfold bind at 1 2; rewrite Hrun; by eexists.
Qed.

Lemma visit_all_returns keys rows w :
  index_ready getFullName w →
  Forall (λ key, is_Some (reflections (registry w) !! key)) keys →
  ∃ rows', JavascriptIndexPlugin.visit_all getFullName keys rows w
           = (Returned rows', w).
Proof.
  intros Hready Hkeys. revert rows.
  induction Hkeys as [|key keys [l Hkey] _ IH]; intros rows; simpl.
  - by eexists.
  - destruct (visit_returns key l rows w Hready Hkey) as [rows1 Hvisit].
    unfold bind. rewrite Hvisit. apply IH.
Qed.

(** X17.  When [getFullName] changes nothing and the world is ready for
    the index (every registered reflection is in the store, with its
    parent, and the parents that are not the project have a full name),
    [onRendererBegin] returns, having written the search file and nothing
    else. *)
Theorem onRendererBegin_returns event w :
  index_ready getFullName w →
  ∃ rows,
    JavascriptIndexPlugin.visit_all getFullName
      (JavascriptIndexPlugin.keys_in_order (reflections (registry w))) [] w
    = (Returned rows, w)
    ∧ JavascriptIndexPlugin.onRendererBegin getFullName JSON_stringify
        Path_join event w
      = (Returned tt,
         set_files
           (<[Path_join [JavascriptIndexPlugin.outputDirectory event;
                         "assets"; "js"; "search.js"]
              := JavascriptIndexPlugin.banner +:+ JSON_stringify rows
                 +:+ ";"]> (files w)) w).
Proof.
  intros Hready.
  destruct (visit_all_returns
              (JavascriptIndexPlugin.keys_in_order (reflections (registry w)))
              [] w Hready) as [rows Hrows].
  { apply Forall_forall. intros key Hkey.
    unfold JavascriptIndexPlugin.keys_in_order in Hkey.
    rewrite merge_sort_Permutation in Hkey.
    apply list_elem_of_fmap in Hkey as ([key' l] & -> & Hkey).
    apply elem_of_map_to_list in Hkey. by exists l. }
  exists rows. split; [done|].
  unfold JavascriptIndexPlugin.onRendererBegin, gets, bind at 1. simpl.
  unfold bind. by rewrite Hrows.
Qed.
End rows.

(** ** The properties on the example graphs *)

Lemma keeps_heap_log_visit child property :
  keeps_heap (MoreExamples.log_visit child property).
Proof.
  unfold MoreExamples.log_visit, read_reflection.
  apply keeps_heap_bind.
  - apply keeps_heap_bind; [apply keeps_heap_read|].
    intros o. destruct (as_reflection o);
      [apply keeps_heap_ret|apply keeps_heap_stuck].
  - intros r. apply keeps_heap_writeFile.
Qed.

Lemma zoo_edges_descend : search_edges_descend (λ l, l) Examples.zoo.
Proof.
  intros l d Hl.
  do 10 (destruct l as [|l];
         [simpl in Hl; simplify_eq;
          (split;
           [intros p Hp; cbv in Hp
           |intros first rest p Hext Hp; cbv in Hext; simplify_eq;
            cbv in Hp]);
          simplify_eq; simpl; lia|]).
  done.
Qed.

Lemma traverse_visits_witness :
  (∀ child property, keeps_heap (MoreExamples.log_visit child property))
  ∧ heap MoreExamples.box_world !! 1%nat = Some (Declaration MoreExamples.box)
  ∧ heap MoreExamples.box_world !! 5%nat = Some (Array [6%nat])
  ∧ Traversal.traverse MoreExamples.no_children MoreExamples.log_visit 1%nat
      MoreExamples.box_world
    = visit_then (own_visits MoreExamples.box [6%nat]) MoreExamples.log_visit
        (MoreExamples.no_children MoreExamples.log_visit 1%nat)
        MoreExamples.box_world.
Proof.
  split_and!; [exact keeps_heap_log_visit|reflexivity|reflexivity|].
  exact (traverse_visits MoreExamples.no_children MoreExamples.log_visit
           keeps_heap_log_visit 1%nat MoreExamples.box [6%nat]
           MoreExamples.box_world eq_refl eq_refl).
Defined.

(** The callback of the example is called five times on [Box]. *)
Example traverse_box :
  files (Traversal.traverse MoreExamples.no_children MoreExamples.log_visit
           1%nat MoreExamples.box_world).2
  = {[ "T" := "typeParameter"; "U" := "typeParameter";
       "__type" := "typeLiteral"; "__call" := "signatures";
       "__index" := "indexSignature" ]}.
Proof. vm_compute. reflexivity. Qed.

Lemma getAllSignatures_returns_signature_visits_witness :
  heap Examples.zoo_world !! 6%nat = Some (Declaration Examples.bark)
  ∧ heap Examples.zoo_world !! 7%nat = Some (Array [8%nat; 9%nat])
  ∧ ∃ result w',
      DeclarationReflection.getAllSignatures 6%nat Examples.zoo_world
      = (Returned result, w')
      ∧ heap w' !! result
        = Some (Array (map fst
                         (filter
                            (λ v : nat * TraverseProperty.TraverseProperty,
                               is_signature_property v.2 = true)
                            (own_visits Examples.bark [8%nat; 9%nat])))).
Proof.
  split_and!; [reflexivity|reflexivity|].
  exact (getAllSignatures_returns_signature_visits Examples.zoo_world 6%nat
           Examples.bark [8%nat; 9%nat] eq_refl eq_refl).
Defined.

Lemma getAllSignatures_keeps_store_witness :
  heap Examples.zoo_world !! 2%nat = Some (Declaration Examples.name_accessor)
  ∧ ∃ result w',
      DeclarationReflection.getAllSignatures 2%nat Examples.zoo_world
      = (Returned result, w')
      ∧ heap Examples.zoo_world !! result = None
      ∧ (∀ l o, heap Examples.zoo_world !! l = Some o →
                heap w' !! l = Some o)
      ∧ registry w' = registry Examples.zoo_world
      ∧ scope w' = scope Examples.zoo_world
      ∧ files w' = files Examples.zoo_world.
Proof.
  split; [reflexivity|].
  exact (getAllSignatures_keeps_store Examples.zoo_world 2%nat
           Examples.name_accessor [] eq_refl eq_refl).
Defined.

Lemma findReflectionByName_dotted_name_witness :
  ["Animal"; "name"] ≠ []
  ∧ forallb dotless ["Animal"; "name"] = true
  ∧ DeclarationReflection.findReflectionByName getChildByName
      Reflection_findReflectionByName 2 Examples.zoo 5%nat
      (inl (String.concat "." ["Animal"; "name"])) false
    = DeclarationReflection.findReflectionByName getChildByName
        Reflection_findReflectionByName 2 Examples.zoo 5%nat
        (inr ["Animal"; "name"]) false.
Proof.
  assert (Hnames : ["Animal"; "name"] ≠ @nil string) by discriminate.
  split_and!; [exact Hnames|reflexivity|].
  exact (findReflectionByName_dotted_name getChildByName
           Reflection_findReflectionByName 2 Examples.zoo 5%nat
           ["Animal"; "name"] false Hnames eq_refl).
Defined.

Lemma findReflectionByName_terminates_witness :
  search_edges_descend (λ l, l) Examples.zoo
  ∧ (5 < 6)%nat
  ∧ is_Some (DeclarationReflection.findReflectionByName_names getChildByName
               Reflection_findReflectionByName 6 Examples.zoo 5%nat ["name"]
               true)
  ∧ ∀ fuel', (5 < fuel')%nat →
             DeclarationReflection.findReflectionByName_names getChildByName
               Reflection_findReflectionByName fuel' Examples.zoo 5%nat
               ["name"] true
             = DeclarationReflection.findReflectionByName_names getChildByName
                 Reflection_findReflectionByName 6 Examples.zoo 5%nat
                 ["name"] true.
Proof.
  assert (Hfuel : (5 < 6)%nat) by lia.
  split_and!; [exact zoo_edges_descend|exact Hfuel|..];
    apply (findReflectionByName_terminates getChildByName
             Reflection_findReflectionByName (λ l, l) Examples.zoo 6 5%nat
             ["name"] true zoo_edges_descend Hfuel).
Defined.

Lemma findReflectionByName_throw_origin_witness :
  DeclarationReflection.findReflectionByName_names getChildByName
    Reflection_findReflectionByName 1 Examples.widget 1%nat ["render"] true
  = Some (Thrown TypeError)
  ∧ ((∃ l, Reflection_findReflectionByName Examples.widget l ["render"]
           = Thrown TypeError)
     ∨ (TypeError = TypeError
        ∧ ∃ l d, Examples.widget !! l = Some (Declaration d)
                 ∧ extendedTypes d = Some []
                 ∧ getChildByName Examples.widget l ["render"] = None)).
Proof.
  split; [reflexivity|].
  exact (findReflectionByName_throw_origin getChildByName
           Reflection_findReflectionByName 1 Examples.widget 1%nat ["render"]
           true TypeError eq_refl).
Defined.

Lemma toString_extends_super_witness :
  is_Some (Traversal.names_at MoreExamples.box_heap [2%nat; 3%nat])
  ∧ ∃ suffix,
      Traversal.toString MoreExamples.Type_toString "Box"
        MoreExamples.box_heap MoreExamples.box
      = Some ("Box" +:+ suffix)
      ∧ (suffix = "" ↔ typeParameters MoreExamples.box = None
                       ∧ type MoreExamples.box = None).
Proof.
  assert (Hnames :
    is_Some (Traversal.names_at MoreExamples.box_heap [2%nat; 3%nat]))
    by (by eexists).
  split; [exact Hnames|].
  exact (toString_extends_super MoreExamples.Type_toString "Box"
           MoreExamples.box_heap MoreExamples.box Hnames).
Defined.

(** The generic class of the example prints with its type parameters and
    its type. *)
Example toString_box :
  Traversal.toString MoreExamples.Type_toString "Box" MoreExamples.box_heap
    MoreExamples.box
  = Some "Box<T, U>:Object".
Proof. reflexivity. Qed.




Lemma zoo_world_index_ready : index_ready getFullName Examples.zoo_world.
Proof.
  intros key l Hkey. simpl in Hkey.
  repeat (apply lookup_insert_Some in Hkey as [[<- <-]|[_ Hkey]];
          [eexists; split; [reflexivity|];
           intros d p Hd Hp; simplify_eq; cbv in Hp; simplify_eq;
           (eexists; split; [reflexivity|]); intros _; by eexists|]).
  apply lookup_singleton_Some in Hkey as [<- <-].
  eexists; split; [reflexivity|]. intros d p Hd Hp; simplify_eq.
Qed.

Lemma onRendererBegin_returns_witness :
  (∀ l, keeps_world (getFullName l))
  ∧ index_ready getFullName Examples.zoo_world
  ∧ ∃ rows,
      JavascriptIndexPlugin.visit_all getFullName
        (JavascriptIndexPlugin.keys_in_order
           (reflections (registry Examples.zoo_world))) []
        Examples.zoo_world
      = (Returned rows, Examples.zoo_world)
      ∧ JavascriptIndexPlugin.onRendererBegin getFullName
          Examples.JSON_stringify Examples.Path_join
          {| JavascriptIndexPlugin.outputDirectory := "out" |}
          Examples.zoo_world
        = (Returned tt,
           set_files
             (<[Examples.Path_join ["out"; "assets"; "js"; "search.js"]
                := JavascriptIndexPlugin.banner
                   +:+ Examples.JSON_stringify rows +:+ ";"]>
                (files Examples.zoo_world)) Examples.zoo_world).
Proof.
  split_and!; [exact keeps_world_getFullName|exact zoo_world_index_ready|].
  exact (onRendererBegin_returns getFullName Examples.JSON_stringify
           Examples.Path_join keeps_world_getFullName
           {| JavascriptIndexPlugin.outputDirectory := "out" |}
           Examples.zoo_world zoo_world_index_ready).
Defined.

(** The file written for the example graph. *)
Example onRendererBegin_zoo_file :
  files (JavascriptIndexPlugin.onRendererBegin getFullName
           Examples.JSON_stringify Examples.Path_join
           {| JavascriptIndexPlugin.outputDirectory := "out" |}
           Examples.zoo_world).2 !! "out/assets/js/search.js"
  = Some (JavascriptIndexPlugin.banner +:+ "Animal,Animal.name,Dog,Dog.bark;").
Proof. vm_compute. reflexivity. Qed.


Lemma steps_Examples_convertType typeNode type :
  steps (Examples.convertType typeNode type).
Proof. apply steps_ret. Qed.

Lemma convert_keeps_registered_reflections_witness :
  (∀ typeNode type, steps (Examples.convertType typeNode type))
  ∧ registry_ok 5 Examples.two_reflections
  ∧ reflections (registry Examples.two_reflections) !! 6 = Some 1%nat
  ∧ reflections
      (registry (AccessorConverter.convert Examples.convertType
                   Examples.getTypeAtLocation Examples.getter
                   Examples.two_reflections).2) !! 6 = Some 1%nat
  ∧ id_at (AccessorConverter.convert Examples.convertType
             Examples.getTypeAtLocation Examples.getter
             Examples.two_reflections).2 1%nat = Some 6.
Proof.
  assert (Hok : registry_ok 5 Examples.two_reflections).
  { apply registry_ok_reachable.
    apply (rtc_l _ _ Examples.one_reflection).
    - apply step_construct. by eexists.
    - apply rtc_once, step_construct. by eexists. }
  split_and!; [exact steps_Examples_convertType|exact Hok|reflexivity|..];
    apply (convert_keeps_registered_reflections Examples.convertType
             Examples.getTypeAtLocation Examples.getter 5
             Examples.two_reflections 6 1%nat steps_Examples_convertType Hok
             eq_refl).
Defined.

Lemma declarationKind_single_kind_witness :
  0 ≤ 8
  ∧ (AccessorConverter.declarationKind (2 ^ 8)
       (createComment Examples.constant_getter) = ReflectionKind.Constant
     ↔ (2 ^ 8 = ReflectionKind.Class ∨ 2 ^ 8 = ReflectionKind.Interface)
       ∧ ∃ c, createComment Examples.constant_getter = Some c
              ∧ hasTag c "constant" = true).
Proof.
  assert (Hn : 0 ≤ 8) by lia.
  split; [exact Hn|].
  exact (declarationKind_single_kind 8
           (createComment Examples.constant_getter) Hn).
Defined.
